(** * autodoc: the configuration provider, the GitHub collaborator and the
      patching core

    A shallow embedding of [Configuration.ts] and [GitManager.ts], and of
    the documentation pipeline that the design document describes, with
    the properties the design document states about them. *)

From Stdlib Require Import ZArith NArith List Ascii String Lia Bool.
From stdpp Require Import base option list gmap strings.

Local Open Scope string_scope.
Local Open Scope N_scope.

(** ** JavaScript strings

    A JavaScript string is a sequence of UTF-16 code units.  Environment
    variable names are fixed ASCII identifiers and are kept as [string];
    the values read from the environment, the file contents and the request
    fields are [jsstring]s. *)

Abbreviation jsstring := (list N).

Module JS.

(** The code units of an ASCII literal of the source. *)
Definition lit (s : string) : jsstring :=
  map N_of_ascii (list_ascii_of_string s).

(** [Boolean(s)] for a string: only the empty string is falsy. *)
Definition truthy (s : jsstring) : bool :=
  match s with
  | [] => false
  | _ :: _ => true
  end.

(** [Boolean(v)] where [v] is a string or [undefined], as in
    [process.env.X ? a : b] and [if (!process.env.X)]. *)
Definition defined_truthy (v : option jsstring) : bool :=
  match v with
  | None => false
  | Some s => truthy s
  end.

(** [a || b] where [a] may be [undefined]. *)
Definition or_else (v : option jsstring) (d : jsstring) : jsstring :=
  if defined_truthy v then default d v else d.

(** The code units ECMAScript calls WhiteSpace or LineTerminator; these
    are what [String.prototype.trim] removes. *)
Definition is_white_space (c : N) : bool :=
  (9 <=? c) && (c <=? 13)
  || (c =? 32) || (c =? 160) || (c =? 5760)
  || (8192 <=? c) && (c <=? 8202)
  || (c =? 8232) || (c =? 8233) || (c =? 8239) || (c =? 8287)
  || (c =? 12288) || (c =? 65279).

Fixpoint drop_while (p : N -> bool) (s : jsstring) : jsstring :=
  match s with
  | [] => []
  | c :: s' => if p c then drop_while p s' else s
  end.

Definition trimStart (s : jsstring) : jsstring := drop_while is_white_space s.

Definition trimEnd (s : jsstring) : jsstring :=
  rev (drop_while is_white_space (rev s)).

(** [s.trim()] *)
Definition trim (s : jsstring) : jsstring := trimEnd (trimStart s).

(** [s.split(sep)] for a separator of one code unit.  The result is never
    empty: the empty string splits into one empty item. *)
Fixpoint split (sep : N) (s : jsstring) : list jsstring :=
  match s with
  | [] => [[]]
  | c :: s' =>
      if c =? sep then [] :: split sep s'
      else match split sep s' with
           | [] => [[c]]
           | w :: ws => (c :: w) :: ws
           end
  end.

(** [s.toUpperCase()] on the Basic Latin block: the letters a to z are
    mapped to A to Z and every other code unit is kept.  The Unicode
    mapping differs from this one only on strings holding a unit above
    127, and no such string is mapped to the one-letter string T. *)
Definition upper_unit (c : N) : N :=
  if (97 <=? c) && (c <=? 122) then c - 32 else c.

Definition toUpperCase (s : jsstring) : jsstring := map upper_unit s.

(** [s.replace(/^\/+/, '')]: the leading slashes are removed. *)
Definition strip_leading_slashes (s : jsstring) : jsstring :=
  drop_while (fun c => c =? 47) s.

(** [s.replace(/\\/g, '/')]: every backslash becomes a slash. *)
Definition backslashes_to_slashes (s : jsstring) : jsstring :=
  map (fun c => if c =? 92 then 47 else c) s.

(** [===] on strings. *)
Definition eqb (s t : jsstring) : bool := bool_decide (s = t).

End JS.

Arguments JS.lit : simpl never.

(** ** Parsed YAML documents

    What [yaml.parse] returns: a JavaScript value built from [null],
    booleans, numbers, strings, arrays and plain objects.  A property
    read that finds nothing is [undefined], written [None] below. *)

#[local] Set Warnings "-register-all".

Inductive yaml : Type :=
| YNull
| YBool (b : bool)
| YNum (n : Z)
| YStr (s : jsstring)
| YSeq (items : list yaml)
| YMap (fields : list (jsstring * yaml)).

Module Yaml.

Fixpoint assoc (k : jsstring) (fields : list (jsstring * yaml)) : option yaml :=
  match fields with
  | [] => None
  | (k', v) :: rest => if JS.eqb k' k then Some v else assoc k rest
  end.

(** [v.k]: reading a property of [undefined] or [null] throws a
    TypeError ([None] in the outer option); on a plain object it is the
    field or [undefined]; the keys read by the source name no property
    of a boolean, a number, a string or an array. *)
Definition get (v : option yaml) (k : jsstring) : option (option yaml) :=
  match v with
  | None | Some YNull => None
  | Some (YMap fields) => Some (assoc k fields)
  | Some _ => Some None
  end.

(** [v?.k]: [undefined] when [v] is [undefined] or [null]. *)
Definition get_opt (v : option yaml) (k : jsstring) : option yaml :=
  match v with
  | Some (YMap fields) => assoc k fields
  | _ => None
  end.

(** [Boolean(v)] *)
Definition truthy (v : option yaml) : bool :=
  match v with
  | None | Some YNull => false
  | Some (YBool b) => b
  | Some (YNum n) => negb (n =? 0)%Z
  | Some (YStr s) => JS.truthy s
  | Some (YSeq _) | Some (YMap _) => true
  end.

End Yaml.

(** ** Results

    A call either returns a value or throws. *)

Inductive result (E A : Type) : Type :=
| Ok (a : A)
| Throw (e : E).

Arguments Ok {E A} a.
Arguments Throw {E A} e.

Definition result_bind {E A B} (r : result E A) (k : A -> result E B) : result E B :=
  match r with
  | Ok a => k a
  | Throw e => Throw e
  end.

Definition or_throw {E A} (e : E) (o : option A) : result E A :=
  match o with
  | Some a => Ok a
  | None => Throw e
  end.

Declare Scope result_scope.
Delimit Scope result_scope with result.
Notation "'let!' x ':=' r 'in' k" := (result_bind r (fun x => k))
  (at level 10, x name, r at level 100, k at level 200) : result_scope.

(** JavaScript numbers as far as the source needs them: what
    [Number.parseInt] returns. *)
Inductive jsnumber : Type :=
| NaN
| Int (z : Z).

(** [Repository] of [types/index.ts], as the two classes use it.  [name] is
    [undefined] when [GITHUB_REPOSITORY] holds no slash. *)
Record Repository : Type := {
  owner : jsstring;
  name : option jsstring;
  pullNumber : option jsnumber
}.

(** ** Configuration.ts *)

Module Configuration.

(** The part of the Node.js runtime that the class reads: the process
    environment and working directory, the file system, and the library
    functions [path.resolve], [path.join], [yaml.parse] and
    [Number.parseInt].  [None] from a reader or parser stands for a
    thrown exception. *)
Record Node : Type := {
  env : gmap string jsstring;
  cwd : jsstring;
  path_resolve : jsstring -> jsstring -> jsstring;
  path_join : jsstring -> jsstring -> jsstring;
  fs_existsSync : jsstring -> bool;
  fs_readFileSync : jsstring -> option jsstring;
  yaml_parse : jsstring -> option yaml;
  Number_parseInt : jsstring -> jsnumber
}.

Inductive Error : Type :=
| WorkflowFileNotFound (workflowPath : jsstring)
| NoRootDirectoryDefault
| TypeError
| ReadError
| YamlError.

Record RootDirectory : Type := {
  absolute : jsstring;
  relative : jsstring
}.

(** The fields of a [Configuration] object.  [_rootDirectory] has no
    initialiser and is [undefined] until [loadConfiguration] assigns it. *)
Record t : Type := {
  _rootDirectory : option RootDirectory;
  repoRoot : jsstring;
  _branch : jsstring;
  _generateJsDoc : bool;
  _generateReadme : bool;
  useGit : bool;
  excludedDirectories : list jsstring;
  repository : Repository;
  commitMessage : jsstring;
  pullRequestTitle : jsstring;
  pullRequestDescription : jsstring;
  pullRequestLabels : list jsstring;
  pullRequestReviewers : list jsstring;
  excludedFiles : list jsstring
}.

Definition getRepoRoot (node : Node) : jsstring :=
  match env node !! "GITHUB_WORKSPACE" with
  | Some w => if JS.truthy w then w else cwd node
  | None => cwd node
  end.

(** The object after the field initialisers and the first statement of
    the constructor. *)
Definition initial (node : Node) : t := {|
  _rootDirectory := None;
  repoRoot := getRepoRoot node;
  _branch := JS.lit "develop";
  _generateJsDoc := true;
  _generateReadme := false;
  useGit := true;
  excludedDirectories := [];
  repository := {| owner := []; name := Some []; pullNumber := None |};
  commitMessage := JS.lit "Generated JSDoc comments";
  pullRequestTitle := JS.lit "JSDoc Generation";
  pullRequestDescription := JS.lit "Automated JSDoc generation for the codebase";
  pullRequestLabels := [JS.lit "documentation"; JS.lit "automated-pr"];
  pullRequestReviewers := [];
  excludedFiles := [JS.lit "index.d.ts"]
|}.

Definition parseCommaSeparatedInput
    (input : option jsstring) (defaultValue : list jsstring) : list jsstring :=
  match input with
  | None => defaultValue
  | Some s =>
      if negb (JS.truthy s) then defaultValue
      else List.filter JS.truthy (map JS.trim (JS.split 44 s))
  end.

(** [process.env.X ? process.env.X.toUpperCase() === 'T' : true] *)
Definition parseFlag (v : option jsstring) : bool :=
  match v with
  | None => true
  | Some s =>
      if JS.truthy s then JS.eqb (JS.toUpperCase s) (JS.lit "T") else true
  end.

(** The [if (rootDirectory) ... else ...] statement of
    [loadConfiguration]. *)
Definition loadRootDirectory (node : Node) (this : t) : result Error RootDirectory :=
  let rootDirectory := env node !! "INPUT_ROOT_DIRECTORY" in
  if JS.defined_truthy rootDirectory then
    let rootDirectory := default [] rootDirectory in
    Ok {| absolute := path_resolve node (repoRoot this) rootDirectory;
          relative := JS.strip_leading_slashes rootDirectory |}
  else
    let workflowPath :=
      path_join node (repoRoot this) (JS.lit ".github/workflows/jsdoc-automation.yml") in
    if negb (fs_existsSync node workflowPath) then
      Throw (WorkflowFileNotFound workflowPath)
    else
      (let! workflowContent := or_throw ReadError (fs_readFileSync node workflowPath) in
       let! workflow := or_throw YamlError (yaml_parse node workflowContent) in
       let! on := or_throw TypeError (Yaml.get (Some workflow) (JS.lit "on")) in
       let! workflow_dispatch := or_throw TypeError (Yaml.get on (JS.lit "workflow_dispatch")) in
       let! inputs := or_throw TypeError (Yaml.get workflow_dispatch (JS.lit "inputs")) in
       let default_ :=
         Yaml.get_opt (Yaml.get_opt inputs (JS.lit "root_directory")) (JS.lit "default") in
       if negb (Yaml.truthy default_) then Throw NoRootDirectoryDefault
       else
         match default_ with
         | Some (YStr targetDir) =>
             Ok {| absolute := path_resolve node (repoRoot this) targetDir;
                   relative := JS.strip_leading_slashes targetDir |}
         | _ => Throw TypeError
         end)%result.

(** The repository assignments of [loadConfiguration]. *)
Definition loadRepository (node : Node) (this : t) : Repository :=
  let named :=
    match env node !! "GITHUB_REPOSITORY" with
    | Some r =>
        if JS.truthy r then
          let parts := JS.split 47 r in
          {| owner := default [] (parts !! 0%nat);
             name := parts !! 1%nat;
             pullNumber := pullNumber (repository this) |}
        else
          {| owner := JS.lit "nydiokar"; name := Some (JS.lit "sova");
             pullNumber := pullNumber (repository this) |}
    | None =>
        {| owner := JS.lit "nydiokar"; name := Some (JS.lit "sova");
           pullNumber := pullNumber (repository this) |}
    end in
  match env node !! "INPUT_PULL_NUMBER" with
  | Some p =>
      if JS.truthy p then
        {| owner := owner named; name := name named;
           pullNumber := Some (Number_parseInt node p) |}
      else named
  | None => named
  end.

Definition loadConfiguration (node : Node) (this : t) : result Error t :=
  let generateJsDoc := parseFlag (env node !! "INPUT_JSDOC") in
  let generateReadme := parseFlag (env node !! "INPUT_README") in
  (let! rootDirectory := loadRootDirectory node this in
   Ok {| _rootDirectory := Some rootDirectory;
         repoRoot := repoRoot this;
         _branch := JS.or_else (env node !! "INPUT_BRANCH") (JS.lit "develop");
         _generateJsDoc := generateJsDoc;
         _generateReadme := generateReadme;
         useGit := useGit this;
         excludedDirectories :=
           parseCommaSeparatedInput (env node !! "INPUT_EXCLUDED_DIRECTORIES")
             [JS.lit "node_modules"; JS.lit "dist"; JS.lit "test"];
         repository := loadRepository node this;
         commitMessage := commitMessage this;
         pullRequestTitle := pullRequestTitle this;
         pullRequestDescription := pullRequestDescription this;
         pullRequestLabels := pullRequestLabels this;
         pullRequestReviewers :=
           parseCommaSeparatedInput (env node !! "INPUT_REVIEWERS") [];
         excludedFiles := excludedFiles this |})%result.

(** [new Configuration()] *)
Definition new (node : Node) : result Error t :=
  loadConfiguration node (initial node).

Definition generateJsDoc (this : t) : bool := _generateJsDoc this.
Definition generateReadme (this : t) : bool := _generateReadme this.
Definition rootDirectory (this : t) : option RootDirectory := _rootDirectory this.
Definition relativePath (this : t) : option jsstring := relative <$> _rootDirectory this.
Definition absolutePath (this : t) : option jsstring := absolute <$> _rootDirectory this.
Definition branch (this : t) : jsstring := _branch this.

End Configuration.

(** ** GitManager.ts *)

Module GitManager.

(** A thrown JavaScript error: [status] is the HTTP status of a failed
    request and [undefined] on any other error. *)
Record JsError : Type := {
  status : option Z;
  message : jsstring
}.

(** The fields of the response bodies that the class reads. *)
Record PullRequest : Type := { number : Z }.
Record User : Type := { login : jsstring }.
Record Content : Type := { sha : option jsstring }.

(** The REST requests issued by [commitFile] and [createPullRequest],
    with the parameters the class passes.  An optional parameter left
    out or [undefined] is [None]. *)
Inductive Request : Type :=
| pulls_list (owner : jsstring) (repo : option jsstring) (head : jsstring)
| pulls_create (owner : jsstring) (repo : option jsstring)
  (title body head base : jsstring) (labels : option (list jsstring))
| users_getAuthenticated
| pulls_requestReviewers (owner : jsstring) (repo : option jsstring)
  (pull_number : Z) (reviewers : list jsstring)
| repos_getContent (owner : jsstring) (repo : option jsstring) (path ref : jsstring)
| repos_createOrUpdateFileContents (owner : jsstring) (repo : option jsstring)
  (path message content : jsstring) (sha : option jsstring) (branch : jsstring).

(** The [data] of the response to each request. *)
Definition Data (r : Request) : Type :=
  match r with
  | pulls_list _ _ _ => list PullRequest
  | pulls_create _ _ _ _ _ _ _ => PullRequest
  | users_getAuthenticated => User
  | pulls_requestReviewers _ _ _ _ => unit
  | repos_getContent _ _ _ _ => Content
  | repos_createOrUpdateFileContents _ _ _ _ _ _ _ => unit
  end.

(** GitHub as the client sees it: the answer to a request, which may
    depend on every request issued before it. *)
Definition Remote : Type :=
  forall (history : list Request) (r : Request), result JsError (Data r).

(** An asynchronous method body: it runs against a remote, extends the
    log of requests issued so far, and resolves or rejects. *)
Definition M (A : Type) : Type :=
  Remote -> list Request -> list Request * result JsError A.

Definition ret {A} (a : A) : M A := fun _ log => (log, Ok a).

Definition throw {A} (e : JsError) : M A := fun _ log => (log, Throw e).

Definition bind {A B} (m : M A) (k : A -> M B) : M B :=
  fun remote log =>
    match m remote log with
    | (log', Ok a) => k a remote log'
    | (log', Throw e) => (log', Throw e)
    end.

(** [try { m } catch (error) { handler }] *)
Definition try_catch {A} (m : M A) (handler : JsError -> M A) : M A :=
  fun remote log =>
    match m remote log with
    | (log', Ok a) => (log', Ok a)
    | (log', Throw e) => handler e remote log'
    end.

(** [await this.octokit.<request>] *)
Definition await (r : Request) : M (Data r) :=
  fun remote log => ((log ++ [r])%list, remote log r).

Definition run {A} (m : M A) (remote : Remote) : list Request * result JsError A :=
  m remote [].

Declare Scope async_scope.
Delimit Scope async_scope with async.
Notation "x <- m ;; k" := (bind m (fun x => k))
  (at level 100, m at next level, right associativity) : async_scope.
Notation "m ;; k" := (bind m (fun _ => k))
  (at level 100, right associativity) : async_scope.

Record Octokit : Type := { auth : jsstring }.

Record t : Type := {
  repository : Repository;
  octokit : Octokit
}.

(** [new GitManager(repository)], given [process.env]. *)
Definition new (env : gmap string jsstring) (repository : Repository) : result JsError t :=
  if negb (JS.defined_truthy (env !! "GITHUB_ACCESS_TOKEN")) then
    Throw {| status := None; message := JS.lit "GITHUB_ACCESS_TOKEN is not set" |}
  else
    Ok {| repository := repository;
          octokit := {| auth := default [] (env !! "GITHUB_ACCESS_TOKEN") |} |}.

Record CreatePullRequestOptions : Type := {
  title : jsstring;
  body : jsstring;
  head : jsstring;
  base : jsstring;
  labels : option (list jsstring);
  reviewers : option (list jsstring)
}.

Section Methods.

(** [Buffer.from(content).toString('base64')] *)
Variable base64 : jsstring -> jsstring.

Variable this : t.

Definition commitFile (branchName filePath content message : jsstring) : M unit :=
  let posixFilePath := JS.backslashes_to_slashes filePath in
  try_catch
    (data <- await (repos_getContent (owner (repository this)) (name (repository this))
                      posixFilePath branchName) ;;
     await (repos_createOrUpdateFileContents
              (owner (repository this)) (name (repository this))
              posixFilePath message (base64 content) (sha data) branchName))%async
    (fun error =>
       if bool_decide (status error = Some 404%Z) then
         await (repos_createOrUpdateFileContents
                  (owner (repository this)) (name (repository this))
                  posixFilePath message (base64 content) None branchName)
       else throw error).

Definition createPullRequest (options : CreatePullRequestOptions) : M unit :=
  try_catch
    (existingPr <- await (pulls_list (owner (repository this)) (name (repository this))
                            (head options)) ;;
     if (0 <? length existingPr)%nat then ret tt
     else
       pr <- await (pulls_create (owner (repository this)) (name (repository this))
                      (title options) (body options) (head options) (base options)
                      (labels options)) ;;
       match reviewers options with
       | None => ret tt
       | Some reviewers =>
           if (0 <? length reviewers)%nat then
             currentUser <- await users_getAuthenticated ;;
             let prAuthor := login currentUser in
             let reviewersToRequest :=
               List.filter (fun reviewer => negb (JS.eqb (JS.trim reviewer) prAuthor))
                 reviewers in
             if (0 <? length reviewersToRequest)%nat then
               await (pulls_requestReviewers
                        (owner (repository this)) (name (repository this))
                        (number pr) reviewersToRequest)
             else ret tt
           else ret tt
       end)%async
    (fun error => throw error).

End Methods.

(** Requests by kind, for statements about a log. *)
Definition is_pulls_create (r : Request) : bool :=
  match r with
  | pulls_create _ _ _ _ _ _ _ => true
  | _ => false
  end.

Definition is_requestReviewers (r : Request) : bool :=
  match r with
  | pulls_requestReviewers _ _ _ _ => true
  | _ => false
  end.

End GitManager.

(** ** The documentation pipeline

    The coverage analyzer, the patch writer and the orchestrator are not
    among the source files at hand; they are modelled from the design
    document (sections 3, 4.3, 4.5, 4.6 and 7). *)

Module Core.

Abbreviation text := (list Byte.byte).

Record SourceFile : Type := {
  relative_path : string;
  raw_text : text
}.

Inductive Kind : Type :=
| KFunction | KClass | KMethod | KInterface | KTypeAlias | KConst.

(** Lines [first_line] to [last_line], both included. *)
Record LineRange : Type := {
  first_line : nat;
  last_line : nat
}.

(** Byte offsets [range_start] (included) to [range_end] (excluded) of
    the original text. *)
Record ByteRange : Type := {
  range_start : nat;
  range_end : nat
}.

Record Declaration : Type := {
  kind : Kind;
  qualified_name : string;
  signature : string;
  header_lines : LineRange;
  body_lines : LineRange;
  header_offset : nat;
  existing_doc : option ByteRange;
  exported : bool
}.

Inductive Verdict : Type :=
| Skip
| Generate
| Regenerate.

Inductive Mode : Type :=
| FullScan
| Incremental (changes : gmap string (list LineRange)).

(** Modelled from the spec: the Coverage Analyzer (section 4.3), whose
    source file is not at hand.  Two line ranges intersect when they
    share a line. *)
Definition intersects (a b : LineRange) : bool :=
  (first_line a <=? last_line b)%nat && (first_line b <=? last_line a)%nat.

(** Modelled from the spec: a declaration is touched when its header
    range or its body range intersects a changed range (section 4.3,
    tie-break). *)
Definition touched (changed : list LineRange) (d : Declaration) : bool :=
  existsb (intersects (header_lines d)) changed
  || existsb (intersects (body_lines d)) changed.

Definition documented (d : Declaration) : bool :=
  match existing_doc d with
  | Some _ => true
  | None => false
  end.

(** Modelled from the spec: the verdict of the Coverage Analyzer for one
    declaration of the file at [path] (section 4.3).  [excluded] says
    that a file-level exclusion rule covers the file. *)
Definition verdict (mode : Mode) (excluded : bool) (path : string)
    (d : Declaration) : Verdict :=
  if excluded then Skip
  else
    match mode with
    | FullScan => if documented d then Skip else Generate
    | Incremental changes =>
        match changes !! path with
        | None => Skip
        | Some changed =>
            if touched changed d then
              if documented d then Regenerate else Generate
            else Skip
        end
    end.

Definition analyze (mode : Mode) (excluded : bool) (path : string)
    (decls : list Declaration) : list (Declaration * Verdict) :=
  map (fun d => (d, verdict mode excluded path d)) decls.

(** *** Patch Writer *)

Record Edit : Type := {
  range : ByteRange;
  replacement : text
}.

Definition edit_start (e : Edit) : nat := range_start (range e).
Definition edit_end (e : Edit) : nat := range_end (range e).

(** Order of the edits of one file: by start offset, then by end offset,
    so that an insertion at an offset comes before a replacement that
    starts there. *)
Definition edit_leb (a b : Edit) : bool :=
  (edit_start a <? edit_start b)%nat
  || (edit_start a =? edit_start b)%nat && (edit_end a <=? edit_end b)%nat.

Fixpoint insert_edit (e : Edit) (sorted : list Edit) : list Edit :=
  match sorted with
  | [] => [e]
  | x :: rest => if edit_leb e x then e :: sorted else x :: insert_edit e rest
  end.

(** Modelled from the spec: the edits of one file are merged into one
    ordered patch (sections 3 and 4.5). *)
Definition merge (edits : list Edit) : list Edit :=
  fold_right insert_edit [] edits.

(** Modelled from the spec: the check made before writing (section 7):
    every range lies within the original text of [size] bytes and starts
    at or after [pos], the end of the range before it. *)
Fixpoint well_formed_from (pos size : nat) (patch : list Edit) : bool :=
  match patch with
  | [] => true
  | e :: rest =>
      (pos <=? edit_start e)%nat && (edit_start e <=? edit_end e)%nat
      && (edit_end e <=? size)%nat && well_formed_from (edit_end e) size rest
  end.

Definition well_formed (original : text) (patch : list Edit) : bool :=
  well_formed_from 0 (length original) patch.

(** One edit applied to a text. *)
Definition splice (t : text) (e : Edit) : text :=
  (take (edit_start e) t ++ replacement e ++ drop (edit_end e) t)%list.

(** Modelled from the spec: the ranges are processed from the end of the
    file backward to the start (section 4.5). *)
Definition apply_backward (original : text) (patch : list Edit) : text :=
  fold_left splice (rev patch) original.

Inductive FailureReason : Type :=
| Unreadable
| ParseFailure
| InvalidPatchRanges.

Inductive Outcome : Type :=
| Unchanged
| Patched (new_text : text)
| Failed (reason : FailureReason).

(** Modelled from the spec: the Patch Writer (sections 4.5 and 7).  A
    file with no edit is not rewritten; a patch that overlaps or leaves
    the text fails the file; otherwise the file is rewritten in one
    pass. *)
Definition write (original : text) (edits : list Edit) : Outcome :=
  match edits with
  | [] => Unchanged
  | _ :: _ =>
      let patch := merge edits in
      if well_formed original patch then Patched (apply_backward original patch)
      else Failed InvalidPatchRanges
  end.

(** The text of the file after the writer has run. *)
Definition output_text (original : text) (o : Outcome) : text :=
  match o with
  | Patched new_text => new_text
  | Unchanged | Failed _ => original
  end.

(** Modelled from the spec: the patched text as one left-to-right splice
    (section 3): from offset [pos] on, the original up to the next range,
    then its replacement, and so on to the end of the text. *)
Fixpoint splice_forward (pos : nat) (original : text) (patch : list Edit) : text :=
  match patch with
  | [] => drop pos original
  | e :: rest =>
      (take (edit_start e - pos) (drop pos original) ++ replacement e
       ++ splice_forward (edit_end e) original rest)%list
  end.

(** The offset, in the output, of the byte at offset [i] of the
    original: [i] moved right by the bytes inserted, and left by the
    bytes removed, by the edits that end at or before [i]. *)
Fixpoint inserted_before (i : nat) (edits : list Edit) : nat :=
  match edits with
  | [] => 0
  | e :: rest =>
      ((if (edit_end e <=? i)%nat then length (replacement e) else 0)
       + inserted_before i rest)%nat
  end.

Fixpoint removed_before (i : nat) (edits : list Edit) : nat :=
  match edits with
  | [] => 0
  | e :: rest =>
      ((if (edit_end e <=? i)%nat then edit_end e - edit_start e else 0)
       + removed_before i rest)%nat
  end.

Definition new_offset (i : nat) (edits : list Edit) : nat :=
  (i + inserted_before i edits - removed_before i edits)%nat.

(** Offset [i] lies in no patched range. *)
Definition outside (i : nat) (edits : list Edit) : Prop :=
  Forall (fun e => ~ (edit_start e <= i < edit_end e)%nat) edits.

(** *** Orchestrator *)

Inductive GenerationFailure : Type :=
| RetriesExhausted
| ParseRejected.

Inductive GenerationResult : Type :=
| Generated (doc : text)
| GenerationFailed (why : GenerationFailure).

(** The stages the orchestrator sequences and what it is configured
    with: whether the credentials of the generation backend are there,
    Traversal ([None] when the root directory cannot be read), file
    reading ([None] for an unreadable file), the Declaration Extractor
    ([None] for a parse failure), the Generation Client, the comment
    formatter of the Patch Writer, the file-level exclusion rule and the
    mode. *)
Record Stages : Type := {
  credentials : bool;
  traverse : option (list string);
  read_file : string -> option text;
  extract : SourceFile -> option (list Declaration);
  generate : string -> Declaration -> GenerationResult;
  format_comment : Declaration -> text -> text;
  excluded : string -> bool;
  mode : Mode
}.

(** Modelled from the spec: the edit for one generated comment
    (section 4.5): inserted at the header for [Generate], in place of
    the existing comment for [Regenerate]. *)
Definition edit_for (d : Declaration) (v : Verdict) (comment : text) : option Edit :=
  match v with
  | Skip => None
  | Generate =>
      Some {| range := {| range_start := header_offset d; range_end := header_offset d |};
              replacement := comment |}
  | Regenerate =>
      match existing_doc d with
      | Some r => Some {| range := r; replacement := comment |}
      | None => None
      end
  end.

Record FileReport : Type := {
  outcome : Outcome;
  verdicts : list (Declaration * Verdict);
  generation_failures : list (Declaration * GenerationFailure)
}.

Section PerFile.

Variable st : Stages.
Variable path : string.

Definition generated_edit (dv : Declaration * Verdict) : option Edit :=
  match dv.2 with
  | Skip => None
  | v =>
      match generate st path dv.1 with
      | Generated doc => edit_for dv.1 v (format_comment st dv.1 doc)
      | GenerationFailed _ => None
      end
  end.

Definition generation_failure (dv : Declaration * Verdict)
    : option (Declaration * GenerationFailure) :=
  match dv.2 with
  | Skip => None
  | _ =>
      match generate st path dv.1 with
      | Generated _ => None
      | GenerationFailed why => Some (dv.1, why)
      end
  end.

(** Modelled from the spec: sections 4.1 to 4.5 run on one file
    (section 4.6).  A file that cannot be read or parsed throws the
    reason (section 7, file-scoped); a failed generation leaves its
    declaration out of the patch and is noted (declaration-scoped); the
    outcome is the writer's. *)
Definition process_file : result FailureReason FileReport :=
  (let! raw := or_throw Unreadable (read_file st path) in
   let! decls :=
     or_throw ParseFailure (extract st {| relative_path := path; raw_text := raw |}) in
   let vs := analyze (mode st) (excluded st path) path decls in
   Ok {| outcome := write raw (omap generated_edit vs);
         verdicts := vs;
         generation_failures := omap generation_failure vs |})%result.

End PerFile.

Record PipelineRun : Type := {
  outcomes : list (string * Outcome);
  declarations : list (string * (Declaration * Verdict));
  failed_declarations : list (string * (Declaration * GenerationFailure))
}.

Definition empty_run : PipelineRun :=
  {| outcomes := []; declarations := []; failed_declarations := [] |}.

Inductive Fatal : Type :=
| MissingCredentials
| RootUnreadable.

(** Modelled from the spec: the failure isolation of the orchestrator
    (sections 4.6 and 7).  One file is processed; what it throws is
    caught here and becomes the file's entry in the report, and the run
    goes on. *)
Definition record_file (st : Stages) (run : PipelineRun) (path : string)
    : result Fatal PipelineRun :=
  match process_file st path with
  | Ok report =>
      Ok {| outcomes := (outcomes run ++ [(path, outcome report)])%list;
            declarations := (declarations run ++ map (pair path) (verdicts report))%list;
            failed_declarations :=
              (failed_declarations run
               ++ map (pair path) (generation_failures report))%list |}
  | Throw reason =>
      Ok {| outcomes := (outcomes run ++ [(path, Failed reason)])%list;
            declarations := declarations run;
            failed_declarations := failed_declarations run |}
  end.

(** The loop over the files: it stops at the first step that throws. *)
Fixpoint process_files (st : Stages) (paths : list string) (run : PipelineRun)
    : result Fatal PipelineRun :=
  match paths with
  | [] => Ok run
  | path :: rest =>
      (let! run' := record_file st run path in
       process_files st rest run')%result
  end.

(** Modelled from the spec: the Pipeline Orchestrator (sections 4.6 and
    7).  Missing credentials and an unreadable root are fatal and end the
    run; the files are then processed in the order of the traversal. *)
Definition orchestrate (st : Stages) : result Fatal PipelineRun :=
  if negb (credentials st) then Throw MissingCredentials
  else
    (let! paths := or_throw RootUnreadable (traverse st) in
     process_files st paths empty_run)%result.

(** What [record_file] adds to the report for one file. *)
Definition reported_outcome (st : Stages) (path : string) : Outcome :=
  match process_file st path with
  | Ok report => outcome report
  | Throw reason => Failed reason
  end.

Definition reported_failures (st : Stages) (path : string)
    : list (Declaration * GenerationFailure) :=
  match process_file st path with
  | Ok report => generation_failures report
  | Throw _ => []
  end.

(** The entries of a report about files other than [F]. *)
Definition others {A} (F : string) (entries : list (string * A)) : list (string * A) :=
  List.filter (fun entry => negb (String.eqb entry.1 F)) entries.

(** Two runs that differ only in what happens to file [F]. *)
Record same_except (F : string) (st st' : Stages) : Prop := {
  same_credentials : credentials st = credentials st';
  same_traverse : traverse st = traverse st';
  same_read : forall G, G <> F -> read_file st G = read_file st' G;
  same_extract : forall G raw, G <> F ->
    extract st {| relative_path := G; raw_text := raw |}
    = extract st' {| relative_path := G; raw_text := raw |};
  same_generate : forall G d, G <> F -> generate st G d = generate st' G d;
  same_format : forall d doc, format_comment st d doc = format_comment st' d doc;
  same_excluded : forall G, excluded st G = excluded st' G;
  same_mode : mode st = mode st'
}.

End Core.

(** ** Declarative counterparts

    What a comma-split, a trimmed item and the default that the workflow
    file declares are, stated without reference to the functions above.
    The theorems compare the two. *)

Module Stated.

(** The items joined back, with [sep] between two neighbours. *)
Fixpoint join (sep : N) (items : list jsstring) : jsstring :=
  match items with
  | [] => []
  | [item] => item
  | item :: rest => (item ++ sep :: join sep rest)%list
  end.

(** [items] is the comma-split of [s]: at least one item, no comma
    inside an item, and the items joined with commas are [s]. *)
Definition comma_split (s : jsstring) (items : list jsstring) : Prop :=
  items <> [] /\ join 44 items = s /\ Forall (fun item => ~ In 44 item) items.

Definition starts_clean (t : jsstring) : Prop :=
  match t with
  | [] => True
  | c :: _ => JS.is_white_space c = false
  end.

(** [t] is [s] without its leading and trailing white space. *)
Definition whitespace_trimmed (s t : jsstring) : Prop :=
  exists l r,
    s = (l ++ t ++ r)%list
    /\ Forall (fun c => JS.is_white_space c = true) l
    /\ Forall (fun c => JS.is_white_space c = true) r
    /\ starts_clean t /\ starts_clean (rev t).

Definition without_empty (items : list jsstring) : list jsstring :=
  List.filter (fun item => negb (bool_decide (item = []))) items.

(** [t] is [s] without its leading slashes. *)
Definition leading_slashes_stripped (s t : jsstring) : Prop :=
  exists n, s = (repeat 47 n ++ t)%list
            /\ match t with
               | [] => True
               | c :: _ => c <> 47
               end.

(** The value under a path of keys of nested mappings. *)
Fixpoint lookup_path (keys : list jsstring) (v : yaml) : option yaml :=
  match keys with
  | [] => Some v
  | k :: ks =>
      match v with
      | YMap fields =>
          match Yaml.assoc k fields with
          | Some v' => lookup_path ks v'
          | None => None
          end
      | _ => None
      end
  end.

(** The default of the [root_directory] input that a workflow
    declares. *)
Definition root_directory_default (workflow : yaml) : option yaml :=
  lookup_path [JS.lit "on"; JS.lit "workflow_dispatch"; JS.lit "inputs";
               JS.lit "root_directory"; JS.lit "default"] workflow.

(** A declaration at lines [a] to [b]: its header starts at line [a], its
    body ends at line [b], and the body follows the header with no line
    between them. *)
Definition declared_at (d : Core.Declaration) (a b : nat) : Prop :=
  Core.first_line (Core.header_lines d) = a
  /\ Core.last_line (Core.body_lines d) = b
  /\ (Core.first_line (Core.header_lines d) <= Core.last_line (Core.header_lines d))%nat
  /\ (Core.first_line (Core.header_lines d) <= Core.first_line (Core.body_lines d))%nat
  /\ (Core.first_line (Core.body_lines d) <= S (Core.last_line (Core.header_lines d)))%nat
  /\ (Core.last_line (Core.header_lines d) <= Core.last_line (Core.body_lines d))%nat.

(** Line [line] belongs to the range. *)
Definition in_lines (line : nat) (r : Core.LineRange) : Prop :=
  (Core.first_line r <= line <= Core.last_line r)%nat.

(** No changed range intersects the header or the body. *)
Definition untouched (changed : list Core.LineRange) (d : Core.Declaration) : Prop :=
  Forall (fun c =>
            Core.intersects (Core.header_lines d) c = false
            /\ Core.intersects (Core.body_lines d) c = false) changed.

End Stated.

(** ** What the report of a run has to say

    The entry that the design document asks for each file, read off the
    stages themselves: what reading, parsing and generating returned for
    that file.  The theorems compare the orchestrator with it. *)

Module StatedRun.

(** The edit that section 4.5 asks for declaration [d] of the file at
    [path]: none when the generation failed or the verdict is [Skip];
    the formatted comment inserted at the header for [Generate]; the
    formatted comment in place of the existing one for [Regenerate]. *)
Definition expected_edit (st : Core.Stages) (path : string) (d : Core.Declaration)
    : option Core.Edit :=
  match Core.generate st path d with
  | Core.GenerationFailed _ => None
  | Core.Generated doc =>
      match Core.verdict (Core.mode st) (Core.excluded st path) path d with
      | Core.Skip => None
      | Core.Generate =>
          Some {| Core.range := {| Core.range_start := Core.header_offset d;
                                   Core.range_end := Core.header_offset d |};
                  Core.replacement := Core.format_comment st d doc |}
      | Core.Regenerate =>
          option_map
            (fun r => {| Core.range := r;
                         Core.replacement := Core.format_comment st d doc |})
            (Core.existing_doc d)
      end
  end.

(** The entry of the file at [path] in the report: failed as unreadable
    when it cannot be read, failed to parse when the extractor rejects
    it, and otherwise what the writer makes of its text and of the edits
    of its declarations. *)
Inductive file_result (st : Core.Stages) (path : string) : Core.Outcome -> Prop :=
| unreadable :
    Core.read_file st path = None ->
    file_result st path (Core.Failed Core.Unreadable)
| parse_failure (raw : Core.text) :
    Core.read_file st path = Some raw ->
    Core.extract st {| Core.relative_path := path; Core.raw_text := raw |} = None ->
    file_result st path (Core.Failed Core.ParseFailure)
| processed (raw : Core.text) (decls : list Core.Declaration) :
    Core.read_file st path = Some raw ->
    Core.extract st {| Core.relative_path := path; Core.raw_text := raw |} = Some decls ->
    file_result st path (Core.write raw (omap (expected_edit st path) decls)).

(** The generation for declaration [d] of the file at [path] was asked
    for and failed with [why]. *)
Definition generation_failed (st : Core.Stages) (path : string)
    (d : Core.Declaration) (why : Core.GenerationFailure) : Prop :=
  exists raw decls,
    Core.read_file st path = Some raw
    /\ Core.extract st {| Core.relative_path := path; Core.raw_text := raw |} = Some decls
    /\ In d decls
    /\ Core.verdict (Core.mode st) (Core.excluded st path) path d <> Core.Skip
    /\ Core.generate st path d = Core.GenerationFailed why.

End StatedRun.

(** ** Example runtimes and inputs *)

Module Examples.

(** A runtime with the given environment in which the workflow file
    exists, and parses to [workflow], exactly when [workflow] is given. *)
Definition node (env : gmap string jsstring) (workflow : option yaml)
    : Configuration.Node := {|
  Configuration.env := env;
  Configuration.cwd := JS.lit "/work";
  Configuration.path_resolve := fun a b => (a ++ 47 :: b)%list;
  Configuration.path_join := fun a b => (a ++ 47 :: b)%list;
  Configuration.fs_existsSync := fun _ => bool_decide (is_Some workflow);
  Configuration.fs_readFileSync :=
    fun _ => if bool_decide (is_Some workflow) then Some (JS.lit "on: {}") else None;
  Configuration.yaml_parse := fun _ => workflow;
  Configuration.Number_parseInt := fun _ => NaN
|}.

(** The workflow file of the repository, as far as [root_directory]
    goes. *)
Definition workflow : yaml :=
  YMap [(JS.lit "name", YStr (JS.lit "Autodocs Documentation Generator"));
        (JS.lit "on",
         YMap [(JS.lit "workflow_dispatch",
                YMap [(JS.lit "inputs",
                       YMap [(JS.lit "root_directory",
                              YMap [(JS.lit "required", YBool true);
                                    (JS.lit "default", YStr (JS.lit "src"));
                                    (JS.lit "type", YStr (JS.lit "string"))])])])])].

Definition env_src : gmap string jsstring :=
  {[ "INPUT_ROOT_DIRECTORY" := JS.lit "/src" ]}.

(** The environment a workflow run sets up when the [jsdoc] input is
    left out: the variable is there and empty. *)
Definition env_empty_jsdoc : gmap string jsstring :=
  <[ "INPUT_JSDOC" := [] ]> env_src.

Definition env_excluded : gmap string jsstring :=
  <[ "INPUT_EXCLUDED_DIRECTORIES" := JS.lit " build, ,out/tmp ,," ]> env_src.

Definition env_token : gmap string jsstring :=
  {[ "GITHUB_ACCESS_TOKEN" := JS.lit "ghp_example" ]}.

(** The environment a run sets up when the [root_directory] input is
    left out. *)
Definition env_empty_root : gmap string jsstring :=
  {[ "INPUT_ROOT_DIRECTORY" := [] ]}.

Definition repository : Repository :=
  {| owner := JS.lit "nydiokar"; name := Some (JS.lit "autodoc"); pullNumber := None |}.

Definition manager : GitManager.t :=
  {| GitManager.repository := repository;
     GitManager.octokit := {| GitManager.auth := JS.lit "ghp_example" |} |}.

Definition not_found : GitManager.JsError :=
  {| GitManager.status := Some 404%Z; GitManager.message := JS.lit "Not Found" |}.

Definition server_error : GitManager.JsError :=
  {| GitManager.status := Some 500%Z; GitManager.message := JS.lit "Server Error" |}.

(** A remote on which the head branch has the open pull requests
    [open], the authenticated user is [octocat], and the file read of
    [commitFile] is answered by [content]. *)
Definition remote (open : list GitManager.PullRequest)
    (content : result GitManager.JsError GitManager.Content) : GitManager.Remote :=
  fun _ r =>
    match r return result GitManager.JsError (GitManager.Data r) with
    | GitManager.pulls_list _ _ _ => Ok open
    | GitManager.pulls_create _ _ _ _ _ _ _ => Ok {| GitManager.number := 12 |}
    | GitManager.users_getAuthenticated => Ok {| GitManager.login := JS.lit "octocat" |}
    | GitManager.pulls_requestReviewers _ _ _ _ => Ok tt
    | GitManager.repos_getContent _ _ _ _ => content
    | GitManager.repos_createOrUpdateFileContents _ _ _ _ _ _ _ => Ok tt
    end.

Definition options (reviewers : option (list jsstring))
    : GitManager.CreatePullRequestOptions :=
  {| GitManager.title := JS.lit "JSDoc Generation";
     GitManager.body := JS.lit "Automated JSDoc generation for the codebase";
     GitManager.head := JS.lit "autodocs-1";
     GitManager.base := JS.lit "develop";
     GitManager.labels := Some [JS.lit "documentation"; JS.lit "automated-pr"];
     GitManager.reviewers := reviewers |}.

(** The file of the design document's scenario: an undocumented [add] at
    lines 1 to 5 and a documented [sub] at lines 9 to 20. *)
Definition add : Core.Declaration := {|
  Core.kind := Core.KFunction;
  Core.qualified_name := "add";
  Core.signature := "add(a, b)";
  Core.header_lines := {| Core.first_line := 1; Core.last_line := 1 |};
  Core.body_lines := {| Core.first_line := 1; Core.last_line := 5 |};
  Core.header_offset := 0;
  Core.existing_doc := None;
  Core.exported := true
|}.

Definition sub : Core.Declaration := {|
  Core.kind := Core.KFunction;
  Core.qualified_name := "sub";
  Core.signature := "sub(a, b)";
  Core.header_lines := {| Core.first_line := 9; Core.last_line := 9 |};
  Core.body_lines := {| Core.first_line := 10; Core.last_line := 20 |};
  Core.header_offset := 33;
  Core.existing_doc := Some {| Core.range_start := 22; Core.range_end := 32 |};
  Core.exported := true
|}.

(** A source text and two edits given out of order: a comment that
    replaces bytes 22 to 31 and a comment inserted at the start. *)
Definition source : Core.text :=
  list_byte_of_string "function add(a, b) {} /** old */ function sub(a, b) {}".

Definition edits : list Core.Edit :=
  [ {| Core.range := {| Core.range_start := 22; Core.range_end := 32 |};
       Core.replacement := list_byte_of_string "/** Subtracts. */" |};
    {| Core.range := {| Core.range_start := 0; Core.range_end := 0 |};
       Core.replacement := list_byte_of_string "/** Adds two numbers. */ " |} ].

(** A run over three files in full-scan mode.  Every file holds [source]
    with the declarations [add] and [sub]; [bad.ts] parses only when
    [bad_parses]; the generator answers with a fixed text, except in
    [b.ts], where its retries run out. *)
Definition stages (bad_parses : bool) : Core.Stages := {|
  Core.credentials := true;
  Core.traverse := Some ["a.ts"; "bad.ts"; "b.ts"];
  Core.read_file := fun _ => Some source;
  Core.extract :=
    fun file =>
      if String.eqb (Core.relative_path file) "bad.ts" && negb bad_parses then None
      else Some [add; sub];
  Core.generate :=
    fun path _ =>
      if String.eqb path "b.ts" then Core.GenerationFailed Core.RetriesExhausted
      else Core.Generated (list_byte_of_string "Adds two numbers.");
  Core.format_comment :=
    fun _ doc => (list_byte_of_string "/** " ++ doc ++ list_byte_of_string " */ ")%list;
  Core.excluded := fun _ => false;
  Core.mode := Core.FullScan
|}.

(** A stand-in for the base64 encoder, which no statement looks into. *)
Definition base64 (content : jsstring) : jsstring := content.

End Examples.

(** ** cli.ts: the arguments of [main] *)

Module Cli.

(** [s.startsWith(prefix)] *)
Fixpoint startsWith (s prefix : jsstring) : bool :=
  match prefix with
  | [] => true
  | p :: prefix' =>
      match s with
      | [] => false
      | c :: s' => (c =? p) && startsWith s' prefix'
      end
  end.

(** [process.argv.slice(2)] *)
Definition args (argv : list jsstring) : list jsstring := drop 2 argv.

(** [args.find((arg) => !arg.startsWith('--'))] *)
Definition targetPath (args : list jsstring) : option jsstring :=
  List.find (fun arg => negb (startsWith arg (JS.lit "--"))) args.

(** [args.includes('--dry-run')] *)
Definition dryRun (args : list jsstring) : bool :=
  existsb (fun arg => JS.eqb arg (JS.lit "--dry-run")) args.

(** [args.find((arg) => arg.startsWith('--exclude='))] *)
Definition excludeArg (args : list jsstring) : option jsstring :=
  List.find (fun arg => startsWith arg (JS.lit "--exclude=")) args.

Inductive Error : Type :=
| TypeError.

(** [excludeArg ? excludeArg.split('=')[1].split(',') : []].  Calling
    [split] on an [undefined] second item would throw a TypeError. *)
Definition excludePatterns (args : list jsstring) : result Error (list jsstring) :=
  match excludeArg args with
  | None => Ok []
  | Some excludeArg =>
      if JS.truthy excludeArg then
        match JS.split 61 excludeArg !! 1%nat with
        | Some value => Ok (JS.split 44 value)
        | None => Throw TypeError
        end
      else Ok []
  end.

(** How [main] goes on after reading its arguments: the process exits, or
    the generator is set up for a target path with a dry-run flag and
    exclude patterns.  The classes that [main] then builds are not among
    the source files at hand. *)
Inductive Start : Type :=
| Exit (code : Z)
| Run (targetPath : jsstring) (dryRun : bool) (excludePatterns : list jsstring).

(** The first statements of [main], up to the check of [targetPath].  An
    exception thrown by them rejects the promise of [main], and the
    handler on that promise exits with code 1. *)
Definition main_start (argv : list jsstring) : Start :=
  let args := args argv in
  let targetPath := targetPath args in
  let dryRun := dryRun args in
  match excludePatterns args with
  | Throw _ => Exit 1
  | Ok excludePatterns =>
      if negb (JS.defined_truthy targetPath) then Exit 1
      else Run (default [] targetPath) dryRun excludePatterns
  end.

End Cli.

(** ** GitManager.ts: [getFilesInPullRequest] and [createBranch] *)

Module GitManagerRefs.

(** A file of a pull request as the API lists it, with the fields that
    [getFilesInPullRequest] copies and the ones it leaves behind. *)
Record PullRequestFile : Type := {
  file_sha : jsstring;
  file_filename : jsstring;
  file_status : jsstring;
  file_additions : Z;
  file_deletions : Z;
  file_changes : Z;
  file_blob_url : jsstring;
  file_raw_url : jsstring;
  file_contents_url : jsstring;
  file_patch : option jsstring
}.

(** [PrModeFileChange] of [types/index.ts], as the method builds it. *)
Record PrModeFileChange : Type := {
  filename : jsstring;
  status : jsstring;
  additions : Z;
  deletions : Z;
  changes : Z;
  contents_url : jsstring
}.

Record GitRef : Type := { object_sha : jsstring }.

Inductive Request : Type :=
| pulls_listFiles (owner : jsstring) (repo : option jsstring) (pull_number : Z)
| git_getRef (owner : jsstring) (repo : option jsstring) (ref : jsstring)
| git_createRef (owner : jsstring) (repo : option jsstring) (ref sha : jsstring).

Definition Data (r : Request) : Type :=
  match r with
  | pulls_listFiles _ _ _ => list PullRequestFile
  | git_getRef _ _ _ => GitRef
  | git_createRef _ _ _ _ => unit
  end.

Definition Remote : Type :=
  forall (history : list Request) (r : Request), result GitManager.JsError (Data r).

Definition M (A : Type) : Type :=
  Remote -> list Request -> list Request * result GitManager.JsError A.

Definition ret {A} (a : A) : M A := fun _ log => (log, Ok a).

Definition bind {A B} (m : M A) (k : A -> M B) : M B :=
  fun remote log =>
    match m remote log with
    | (log', Ok a) => k a remote log'
    | (log', Throw e) => (log', Throw e)
    end.

Definition await (r : Request) : M (Data r) :=
  fun remote log => ((log ++ [r])%list, remote log r).

Definition run {A} (m : M A) (remote : Remote)
    : list Request * result GitManager.JsError A :=
  m remote [].

Section Methods.

Variable this : GitManager.t.

Definition getFilesInPullRequest (pullNumber : Z) : M (list PrModeFileChange) :=
  bind
    (await (pulls_listFiles (owner (GitManager.repository this))
              (name (GitManager.repository this)) pullNumber))
    (fun data =>
       ret (map (fun file =>
                   {| filename := file_filename file;
                      status := file_status file;
                      additions := file_additions file;
                      deletions := file_deletions file;
                      changes := file_changes file;
                      contents_url := file_contents_url file |})
                data)).

(** The argument of [createRef] holds an [await]: the base ref is read
    first, and the new ref is created from the sha that was read. *)
Definition createBranch (branchName baseBranch : jsstring) : M unit :=
  bind
    (await (git_getRef (owner (GitManager.repository this))
              (name (GitManager.repository this))
              (JS.lit "heads/" ++ baseBranch)%list))
    (fun base =>
       await (git_createRef (owner (GitManager.repository this))
                (name (GitManager.repository this))
                (JS.lit "refs/heads/" ++ branchName)%list
                (object_sha base))).

End Methods.

End GitManagerRefs.

(** ** Further declarative counterparts and examples *)

Module Clean.

(** An item as [parseCommaSeparatedInput] returns them: not empty, with
    no comma, and with no white space at either end. *)
Definition item (s : jsstring) : Prop :=
  s <> [] /\ ~ In 44 s /\ Stated.starts_clean s /\ Stated.starts_clean (rev s).

(** A string made of commas and white space only. *)
Definition blank (s : jsstring) : Prop :=
  Forall (fun c => c = 44 \/ JS.is_white_space c = true) s.

End Clean.

Module MoreExamples.

Definition env_actions : gmap string jsstring :=
  <[ "GITHUB_REPOSITORY" := JS.lit "nydiokar/autodoc" ]>
    (<[ "INPUT_BRANCH" := JS.lit "main" ]>
       (<[ "INPUT_REVIEWERS" := JS.lit "nydiokar" ]>
          (<[ "INPUT_PULL_NUMBER" := [] ]> Examples.env_src))).

Definition env_spellings : gmap string jsstring :=
  <[ "INPUT_JSDOC" := JS.lit "t" ]> (<[ "INPUT_README" := JS.lit "true" ]> Examples.env_src).

(** A workflow file whose [root_directory] default is the number 5. *)
Definition workflow_numeric : yaml :=
  YMap [(JS.lit "on",
         YMap [(JS.lit "workflow_dispatch",
                YMap [(JS.lit "inputs",
                       YMap [(JS.lit "root_directory",
                              YMap [(JS.lit "default", YNum 5)])])])])].

(** A remote for [createBranch] and [getFilesInPullRequest]. *)
Definition remote (base : result GitManager.JsError GitManagerRefs.GitRef)
    : GitManagerRefs.Remote :=
  fun _ r =>
    match r return result GitManager.JsError (GitManagerRefs.Data r) with
    | GitManagerRefs.pulls_listFiles _ _ _ => Ok []
    | GitManagerRefs.git_getRef _ _ _ => base
    | GitManagerRefs.git_createRef _ _ _ _ => Ok tt
    end.

(** A remote on which the file exists when read and is gone when
    updated: the update fails with 404 and the creation succeeds. *)
Definition remote_vanishing : GitManager.Remote :=
  fun _ r =>
    match r return result GitManager.JsError (GitManager.Data r) with
    | GitManager.pulls_list _ _ _ => Ok []
    | GitManager.pulls_create _ _ _ _ _ _ _ => Throw Examples.server_error
    | GitManager.users_getAuthenticated => Ok {| GitManager.login := JS.lit "octocat" |}
    | GitManager.pulls_requestReviewers _ _ _ _ => Ok tt
    | GitManager.repos_getContent _ _ _ _ => Ok {| GitManager.sha := Some (JS.lit "abc") |}
    | GitManager.repos_createOrUpdateFileContents _ _ _ _ _ (Some _) _ =>
        Throw Examples.not_found
    | GitManager.repos_createOrUpdateFileContents _ _ _ _ _ None _ => Ok tt
    end.

(** A pull request that changes one file and adds another, and a remote
    that lists them. *)
Definition listed_files : list GitManagerRefs.PullRequestFile :=
  [ {| GitManagerRefs.file_sha := JS.lit "1f2e";
       GitManagerRefs.file_filename := JS.lit "src/cli.ts";
       GitManagerRefs.file_status := JS.lit "modified";
       GitManagerRefs.file_additions := 3;
       GitManagerRefs.file_deletions := 1;
       GitManagerRefs.file_changes := 4;
       GitManagerRefs.file_blob_url := JS.lit "https://github.com/blob/cli.ts";
       GitManagerRefs.file_raw_url := JS.lit "https://github.com/raw/cli.ts";
       GitManagerRefs.file_contents_url := JS.lit "https://api.github.com/contents/cli.ts";
       GitManagerRefs.file_patch := Some (JS.lit "@@ -1 +1,3 @@") |};
    {| GitManagerRefs.file_sha := JS.lit "9a8b";
       GitManagerRefs.file_filename := JS.lit "src/GitManager.ts";
       GitManagerRefs.file_status := JS.lit "added";
       GitManagerRefs.file_additions := 10;
       GitManagerRefs.file_deletions := 0;
       GitManagerRefs.file_changes := 10;
       GitManagerRefs.file_blob_url := JS.lit "https://github.com/blob/GitManager.ts";
       GitManagerRefs.file_raw_url := JS.lit "https://github.com/raw/GitManager.ts";
       GitManagerRefs.file_contents_url :=
         JS.lit "https://api.github.com/contents/GitManager.ts";
       GitManagerRefs.file_patch := None |} ].

Definition remote_files : GitManagerRefs.Remote :=
  fun _ r =>
    match r return result GitManager.JsError (GitManagerRefs.Data r) with
    | GitManagerRefs.pulls_listFiles _ _ _ => Ok listed_files
    | GitManagerRefs.git_getRef _ _ _ => Throw Examples.not_found
    | GitManagerRefs.git_createRef _ _ _ _ => Ok tt
    end.

End MoreExamples.

(** * Properties *)

(** ** JavaScript strings *)

Section JSFacts.

Lemma truthy_nonempty (s : jsstring) : JS.truthy s = true <-> s <> [].
Proof. destruct s; simpl; split; congruence. Qed.

Lemma defined_truthy_spec (v : option jsstring) :
  JS.defined_truthy v = false <-> v = None \/ v = Some [].
Proof.
  destruct v as [[|c s]|]; simpl; intuition congruence.
Qed.

Lemma upper_unit_T (c : N) : JS.upper_unit c = 84 <-> c = 116 \/ c = 84.
Proof.
  unfold JS.upper_unit.
  destruct ((97 <=? c) && (c <=? 122)) eqn:E.
  - apply andb_true_iff in E as [E1 E2].
    apply N.leb_le in E1, E2. lia.
  - split; [intros ->; now right|].
    intros [->| ->]; [discriminate E | reflexivity].
Qed.

(** Only the strings t and T have T as their upper-case form. *)
Lemma toUpperCase_T (s : jsstring) :
  JS.toUpperCase s = JS.lit "T" <-> s = JS.lit "t" \/ s = JS.lit "T".
Proof.
  change (JS.lit "T") with [84]. change (JS.lit "t") with [116].
  unfold JS.toUpperCase. split.
  - destruct s as [|c [|c' s]]; simpl; try discriminate.
    intros H. injection H as H. apply upper_unit_T in H.
    destruct H; subst; auto.
  - intros [->| ->]; reflexivity.
Qed.

Lemma eqb_eq (s t : jsstring) : JS.eqb s t = true <-> s = t.
Proof. unfold JS.eqb. apply bool_decide_eq_true. Qed.

(** [drop_while] removes a prefix on which the test holds and stops at
    a unit on which it fails. *)
Lemma drop_while_split (p : N -> bool) (s : jsstring) :
  exists l, s = (l ++ JS.drop_while p s)%list
            /\ Forall (fun c => p c = true) l
            /\ match JS.drop_while p s with
               | [] => True
               | c :: _ => p c = false
               end.
Proof.
  induction s as [|c s IH]; simpl.
  - exists []. repeat split; constructor.
  - destruct (p c) eqn:E.
    + destruct IH as (l & Hs & Hl & Hd).
      exists (c :: l). repeat split; [simpl; congruence | now constructor | exact Hd].
    + exists []. repeat split; [constructor | exact E].
Qed.

End JSFacts.

(** ** Configuration *)

Section SplitAndTrim.

Lemma split_nonempty (sep : N) (s : jsstring) : JS.split sep s <> [].
Proof.
  destruct s as [|c s]; simpl; [discriminate|].
  destruct (c =? sep); [discriminate|].
  destruct (JS.split sep s); discriminate.
Qed.

Lemma join_split (sep : N) (s : jsstring) : Stated.join sep (JS.split sep s) = s.
Proof.
  induction s as [|c s IH]; [reflexivity|].
  simpl. pose proof (split_nonempty sep s) as Hne.
  destruct (c =? sep) eqn:E.
  - apply N.eqb_eq in E. subst c.
    destruct (JS.split sep s) as [|w ws]; [contradiction|].
    simpl in *. now rewrite IH.
  - destruct (JS.split sep s) as [|w ws]; [contradiction|].
    destruct ws as [|w' ws]; simpl in *; now rewrite <- IH.
Qed.

Lemma split_no_separator (sep : N) (s : jsstring) :
  Forall (fun item => ~ In sep item) (JS.split sep s).
Proof.
  induction s as [|c s IH]; simpl.
  - constructor; [intros [] | constructor].
  - destruct (c =? sep) eqn:E.
    + constructor; [intros [] | exact IH].
    + apply N.eqb_neq in E.
      destruct (JS.split sep s) as [|w ws].
      * constructor; [|constructor]. intros [H|[]]. congruence.
      * inversion IH as [|? ? Hw Hws]; subst.
        constructor; [|exact Hws]. intros [H|H]; [congruence | exact (Hw H)].
Qed.

(** [split] computes the comma-split. *)
Lemma split_comma_split (s : jsstring) : Stated.comma_split s (JS.split 44 s).
Proof.
  split; [apply split_nonempty|].
  split; [apply join_split | apply split_no_separator].
Qed.

(** [trim] removes the leading and the trailing white space. *)
Lemma trim_whitespace_trimmed (s : jsstring) : Stated.whitespace_trimmed s (JS.trim s).
Proof.
  unfold JS.trim, JS.trimEnd, JS.trimStart.
  destruct (drop_while_split JS.is_white_space s) as (l & Hs & Hl & Hhead).
  set (u := JS.drop_while JS.is_white_space s) in *.
  destruct (drop_while_split JS.is_white_space (rev u)) as (r & Hu & Hr & Hlast).
  set (v := JS.drop_while JS.is_white_space (rev u)) in *.
  assert (Hu' : u = (rev v ++ rev r)%list).
  { rewrite <- rev_app_distr, <- Hu. now rewrite rev_involutive. }
  exists l, (rev r). repeat split.
  - now rewrite <- Hu'.
  - exact Hl.
  - apply Forall_rev. exact Hr.
  - unfold Stated.starts_clean.
    destruct (rev v) as [|c t] eqn:Ev; [exact I|].
    rewrite Hu' in Hhead. exact Hhead.
  - rewrite rev_involutive. exact Hlast.
Qed.

Lemma trim_all_trimmed (items : list jsstring) :
  Forall2 Stated.whitespace_trimmed items (map JS.trim items).
Proof.
  induction items; simpl; constructor; auto using trim_whitespace_trimmed.
Qed.

Lemma filter_truthy (items : list jsstring) :
  List.filter JS.truthy items = Stated.without_empty items.
Proof.
  unfold Stated.without_empty. apply filter_ext.
  intros [|c s]; reflexivity.
Qed.

Lemma strip_leading_slashes_stripped (s : jsstring) :
  Stated.leading_slashes_stripped s (JS.strip_leading_slashes s).
Proof.
  unfold JS.strip_leading_slashes, Stated.leading_slashes_stripped.
  induction s as [|c s (n & Hs & Ht)]; simpl.
  - exists 0%nat. now split.
  - destruct (c =? 47) eqn:E.
    + apply N.eqb_eq in E. subst c.
      exists (S n). simpl. split; [congruence | exact Ht].
    + apply N.eqb_neq in E. exists 0%nat. now split.
Qed.

End SplitAndTrim.

Section ConfigurationFacts.

Import Configuration.

Lemma parseFlag_true (v : option jsstring) :
  parseFlag v = true
  <-> v = None \/ v = Some [] \/ exists s, v = Some s /\ JS.toUpperCase s = JS.lit "T".
Proof.
  unfold parseFlag. destruct v as [s|].
  - destruct s as [|c s]; simpl.
    + intuition.
    + rewrite eqb_eq. split.
      * intros H. right. right. eauto.
      * intros [H|[H|(s' & H & Hs')]]; try discriminate.
        injection H as <-. exact Hs'.
  - intuition.
Qed.

Lemma parseCommaSeparatedInput_default (v : option jsstring) (d : list jsstring) :
  v = None \/ v = Some [] -> parseCommaSeparatedInput v d = d.
Proof. intros [->| ->]; reflexivity. Qed.

Lemma parseCommaSeparatedInput_items (input : jsstring) (d : list jsstring) :
  input <> [] ->
  parseCommaSeparatedInput (Some input) d
  = Stated.without_empty (map JS.trim (JS.split 44 input)).
Proof.
  intros H. unfold parseCommaSeparatedInput.
  apply truthy_nonempty in H. rewrite H. simpl. apply filter_truthy.
Qed.

(** What a successful construction leaves in the object. *)
Lemma new_Ok (node : Node) (cfg : t) :
  new node = Ok cfg ->
  exists rd,
    loadRootDirectory node (initial node) = Ok rd
    /\ _rootDirectory cfg = Some rd
    /\ _generateJsDoc cfg = parseFlag (env node !! "INPUT_JSDOC")
    /\ _generateReadme cfg = parseFlag (env node !! "INPUT_README")
    /\ excludedDirectories cfg
       = parseCommaSeparatedInput (env node !! "INPUT_EXCLUDED_DIRECTORIES")
           [JS.lit "node_modules"; JS.lit "dist"; JS.lit "test"]
    /\ excludedFiles cfg = [JS.lit "index.d.ts"].
Proof.
  unfold new, loadConfiguration.
  destruct (loadRootDirectory node (initial node)) as [rd|e] eqn:E; simpl;
    [|discriminate].
  intros H. injection H as <-. exists rd. simpl. repeat split; reflexivity.
Qed.

Lemma new_of_root (node : Node) (rd : RootDirectory) :
  loadRootDirectory node (initial node) = Ok rd ->
  exists cfg, new node = Ok cfg /\ _rootDirectory cfg = Some rd.
Proof.
  intros H. unfold new, loadConfiguration. rewrite H. simpl.
  eexists. split; reflexivity.
Qed.

Lemma new_of_throw (node : Node) (e : Error) :
  loadRootDirectory node (initial node) = Throw e -> new node = Throw e.
Proof. intros H. unfold new, loadConfiguration. now rewrite H. Qed.

(** The root directory when [INPUT_ROOT_DIRECTORY] holds a value. *)
Lemma loadRootDirectory_input (node : Node) (this : t) (value : jsstring) :
  env node !! "INPUT_ROOT_DIRECTORY" = Some value -> value <> [] ->
  loadRootDirectory node this
  = Ok {| absolute := path_resolve node (repoRoot this) value;
          relative := JS.strip_leading_slashes value |}.
Proof.
  intros H Hne. unfold loadRootDirectory. rewrite H. simpl.
  apply truthy_nonempty in Hne. now rewrite Hne.
Qed.

Section Fallback.

Variables (node : Node) (this : t).

Let workflowPath : jsstring :=
  path_join node (repoRoot this) (JS.lit ".github/workflows/jsdoc-automation.yml").

Hypothesis no_input :
  env node !! "INPUT_ROOT_DIRECTORY" = None
  \/ env node !! "INPUT_ROOT_DIRECTORY" = Some [].

Lemma fallback_no_file :
  fs_existsSync node workflowPath = false ->
  loadRootDirectory node this = Throw (WorkflowFileNotFound workflowPath).
Proof.
  intros H. apply defined_truthy_spec in no_input.
  unfold loadRootDirectory. rewrite no_input.
  fold workflowPath. now rewrite H.
Qed.

Variables (content : jsstring) (workflow : yaml).

Hypothesis file_exists : fs_existsSync node workflowPath = true.
Hypothesis file_read : fs_readFileSync node workflowPath = Some content.
Hypothesis file_parsed : yaml_parse node content = Some workflow.

Lemma fallback_declared (v : yaml) :
  Stated.root_directory_default workflow = Some v ->
  loadRootDirectory node this
  = if negb (Yaml.truthy (Some v)) then Throw NoRootDirectoryDefault
    else match v with
         | YStr targetDir =>
             Ok {| absolute := path_resolve node (repoRoot this) targetDir;
                   relative := JS.strip_leading_slashes targetDir |}
         | _ => Throw TypeError
         end.
Proof.
  intros H. apply defined_truthy_spec in no_input.
  unfold loadRootDirectory. rewrite no_input.
  fold workflowPath. rewrite file_exists, file_read. simpl.
  rewrite file_parsed. simpl.
  unfold Stated.root_directory_default, Stated.lookup_path in H.
  destruct workflow as [| | | | |f0]; try discriminate. simpl.
  destruct (Yaml.assoc (JS.lit "on") f0) as [[| | | | |f1]|]; try discriminate. simpl.
  destruct (Yaml.assoc (JS.lit "workflow_dispatch") f1) as [[| | | | |f2]|];
    try discriminate. simpl.
  destruct (Yaml.assoc (JS.lit "inputs") f2) as [[| | | | |f3]|];
    try discriminate. simpl.
  destruct (Yaml.assoc (JS.lit "root_directory") f3) as [[| | | | |f4]|];
    try discriminate. simpl.
  destruct (Yaml.assoc (JS.lit "default") f4) as [v'|]; [|discriminate].
  injection H as ->. destruct v; reflexivity.
Qed.

Lemma fallback_undeclared :
  Stated.root_directory_default workflow = None ->
  exists e, loadRootDirectory node this = Throw e.
Proof.
  intros H. apply defined_truthy_spec in no_input.
  unfold loadRootDirectory. rewrite no_input.
  fold workflowPath. rewrite file_exists, file_read. simpl.
  rewrite file_parsed. simpl.
  unfold Stated.root_directory_default, Stated.lookup_path in H.
  destruct workflow as [| | | | |f0]; simpl; eauto.
  destruct (Yaml.assoc (JS.lit "on") f0) as [[| | | | |f1]|]; simpl; eauto.
  destruct (Yaml.assoc (JS.lit "workflow_dispatch") f1) as [[| | | | |f2]|];
    simpl; eauto.
  destruct (Yaml.assoc (JS.lit "inputs") f2) as [[| | | | |f3]|]; simpl; eauto.
  destruct (Yaml.assoc (JS.lit "root_directory") f3) as [[| | | | |f4]|];
    simpl; eauto.
  destruct (Yaml.assoc (JS.lit "default") f4) as [v'|]; [discriminate|].
  simpl. eauto.
Qed.

End Fallback.

End ConfigurationFacts.

(** C6, as amended.  On a constructed configuration, [generateJsDoc] is
    true if and only if [INPUT_JSDOC] is unset, is the empty string, or
    has the one-letter string T as its upper-case form, and
    [generateReadme] is true if and only if the same holds of
    [INPUT_README]; every other value yields false. *)
Theorem mode_flags_parsed (node : Configuration.Node) (cfg : Configuration.t) :
  Configuration.new node = Ok cfg ->
  (Configuration.generateJsDoc cfg = true
   <-> Configuration.env node !! "INPUT_JSDOC" = None
       \/ Configuration.env node !! "INPUT_JSDOC" = Some []
       \/ exists s, Configuration.env node !! "INPUT_JSDOC" = Some s
                    /\ JS.toUpperCase s = JS.lit "T")
  /\ (Configuration.generateReadme cfg = true
      <-> Configuration.env node !! "INPUT_README" = None
          \/ Configuration.env node !! "INPUT_README" = Some []
          \/ exists s, Configuration.env node !! "INPUT_README" = Some s
                       /\ JS.toUpperCase s = JS.lit "T").
Proof.
  intros H. apply new_Ok in H as (rd & _ & _ & Hjs & Hreadme & _).
  unfold Configuration.generateJsDoc, Configuration.generateReadme.
  rewrite Hjs, Hreadme. split; apply parseFlag_true.
Qed.

Lemma mode_flags_parsed_witness :
  exists cfg,
    Configuration.new (Examples.node Examples.env_empty_jsdoc None) = Ok cfg
    /\ Configuration.generateJsDoc cfg = true
    /\ Configuration.generateReadme cfg = true.
Proof.
  eexists. split; [reflexivity|].
  pose proof (mode_flags_parsed (Examples.node Examples.env_empty_jsdoc None) _ eq_refl)
    as [Hjs Hreadme].
  split.
  - apply Hjs. right. left. reflexivity.
  - apply Hreadme. left. reflexivity.
Defined.

(** C6 as stated fails when [INPUT_JSDOC] is set to the empty string: the
    variable is not unset, its upper-case form is not T, and the flag is
    true all the same. *)
Lemma mode_flags_empty_string :
  ~ (forall cfg,
       Configuration.new (Examples.node Examples.env_empty_jsdoc None) = Ok cfg ->
       (Configuration.generateJsDoc cfg = true
        <-> Configuration.env (Examples.node Examples.env_empty_jsdoc None) !! "INPUT_JSDOC"
            = None
            \/ exists s,
                 Configuration.env (Examples.node Examples.env_empty_jsdoc None)
                   !! "INPUT_JSDOC" = Some s
                 /\ JS.toUpperCase s = JS.lit "T")).
Proof.
  intros H. specialize (H _ eq_refl) as [H _].
  specialize (H eq_refl) as [H|(s & H & Hs)].
  - discriminate H.
  - injection H as <-. discriminate Hs.
Qed.

(** C7.  On a constructed configuration the excluded file names are
    [index.d.ts]; the excluded directory names are [node_modules], [dist]
    and [test] when [INPUT_EXCLUDED_DIRECTORIES] is unset or empty, and
    otherwise the comma-split of its value with every item trimmed of
    white space and the empty items removed. *)
Theorem excluded_lists (node : Configuration.Node) (cfg : Configuration.t) :
  Configuration.new node = Ok cfg ->
  Configuration.excludedFiles cfg = [JS.lit "index.d.ts"]
  /\ (Configuration.env node !! "INPUT_EXCLUDED_DIRECTORIES" = None
      \/ Configuration.env node !! "INPUT_EXCLUDED_DIRECTORIES" = Some [] ->
      Configuration.excludedDirectories cfg
      = [JS.lit "node_modules"; JS.lit "dist"; JS.lit "test"])
  /\ (forall input,
        Configuration.env node !! "INPUT_EXCLUDED_DIRECTORIES" = Some input ->
        input <> [] ->
        exists items trimmed,
          Stated.comma_split input items
          /\ Forall2 Stated.whitespace_trimmed items trimmed
          /\ Configuration.excludedDirectories cfg = Stated.without_empty trimmed).
Proof.
  intros H. apply new_Ok in H as (rd & _ & _ & _ & _ & Hdirs & Hfiles).
  split; [exact Hfiles|]. split.
  - intros Hunset. rewrite Hdirs.
    now apply parseCommaSeparatedInput_default.
  - intros input Hinput Hne.
    exists (JS.split 44 input), (map JS.trim (JS.split 44 input)).
    split; [apply split_comma_split|].
    split; [apply trim_all_trimmed|].
    rewrite Hdirs, Hinput. now apply parseCommaSeparatedInput_items.
Qed.

Lemma excluded_lists_witness :
  exists cfg,
    Configuration.new (Examples.node Examples.env_excluded None) = Ok cfg
    /\ Configuration.excludedFiles cfg = [JS.lit "index.d.ts"]
    /\ exists items trimmed,
         Stated.comma_split (JS.lit " build, ,out/tmp ,,") items
         /\ Forall2 Stated.whitespace_trimmed items trimmed
         /\ Configuration.excludedDirectories cfg = Stated.without_empty trimmed.
Proof.
  eexists. split; [reflexivity|].
  pose proof (excluded_lists (Examples.node Examples.env_excluded None) _ eq_refl)
    as (Hfiles & _ & Hdirs).
  split; [exact Hfiles|].
  apply Hdirs; [reflexivity | discriminate].
Defined.

Example excluded_directories_example :
  Configuration.excludedDirectories
    <$> (match Configuration.new (Examples.node Examples.env_excluded None) with
         | Ok cfg => Some cfg
         | Throw _ => None
         end)
  = Some [JS.lit "build"; JS.lit "out/tmp"].
Proof. reflexivity. Qed.

(** C10, as amended.  When [INPUT_ROOT_DIRECTORY] holds a non-empty
    value, construction succeeds and the relative root path is that value
    with its leading slashes stripped.  When it is unset or empty,
    construction falls back to the default of the [root_directory] input
    that [.github/workflows/jsdoc-automation.yml] under the repository
    root declares: it throws when that file does not exist or declares no
    such default, and takes a declared non-empty string as the root
    directory. *)
Theorem root_directory_resolution (node : Configuration.Node) :
  let repoRoot := Configuration.getRepoRoot node in
  let workflowPath :=
    Configuration.path_join node repoRoot
      (JS.lit ".github/workflows/jsdoc-automation.yml") in
  (forall value,
     Configuration.env node !! "INPUT_ROOT_DIRECTORY" = Some value -> value <> [] ->
     exists cfg relative,
       Configuration.new node = Ok cfg
       /\ Configuration.rootDirectory cfg
          = Some {| Configuration.absolute := Configuration.path_resolve node repoRoot value;
                    Configuration.relative := relative |}
       /\ Stated.leading_slashes_stripped value relative)
  /\ (Configuration.env node !! "INPUT_ROOT_DIRECTORY" = None
      \/ Configuration.env node !! "INPUT_ROOT_DIRECTORY" = Some [] ->
      (Configuration.fs_existsSync node workflowPath = false ->
       Configuration.new node = Throw (Configuration.WorkflowFileNotFound workflowPath))
      /\ (forall content workflow,
            Configuration.fs_existsSync node workflowPath = true ->
            Configuration.fs_readFileSync node workflowPath = Some content ->
            Configuration.yaml_parse node content = Some workflow ->
            (Stated.root_directory_default workflow = None ->
             exists e, Configuration.new node = Throw e)
            /\ (forall targetDir,
                  Stated.root_directory_default workflow = Some (YStr targetDir) ->
                  targetDir <> [] ->
                  exists cfg relative,
                    Configuration.new node = Ok cfg
                    /\ Configuration.rootDirectory cfg
                       = Some {| Configuration.absolute :=
                                   Configuration.path_resolve node repoRoot targetDir;
                                 Configuration.relative := relative |}
                    /\ Stated.leading_slashes_stripped targetDir relative))).
Proof.
  intros repoRoot workflowPath. split.
  - intros value Hvalue Hne.
    pose proof (loadRootDirectory_input node (Configuration.initial node) value Hvalue Hne)
      as Hroot.
    apply new_of_root in Hroot as (cfg & Hcfg & Hrd).
    exists cfg, (JS.strip_leading_slashes value).
    split; [exact Hcfg|]. split; [exact Hrd|].
    apply strip_leading_slashes_stripped.
  - intros Hunset. split.
    + intros Hmissing. apply new_of_throw.
      now apply fallback_no_file.
    + intros content workflow Hexists Hread Hparse. split.
      * intros Hnone.
        destruct (fallback_undeclared node (Configuration.initial node) Hunset
                    content workflow Hexists Hread Hparse Hnone) as (e & He).
        exists e. now apply new_of_throw.
      * intros targetDir Hdeclared Hne.
        pose proof (fallback_declared node (Configuration.initial node) Hunset
                      content workflow Hexists Hread Hparse _ Hdeclared) as Hroot.
        simpl in Hroot. apply truthy_nonempty in Hne. rewrite Hne in Hroot.
        simpl in Hroot.
        apply new_of_root in Hroot as (cfg & Hcfg & Hrd).
        exists cfg, (JS.strip_leading_slashes targetDir).
        split; [exact Hcfg|]. split; [exact Hrd|].
        apply strip_leading_slashes_stripped.
Qed.

Lemma root_directory_resolution_witness :
  (exists cfg,
     Configuration.new (Examples.node Examples.env_src None) = Ok cfg
     /\ Configuration.relativePath cfg = Some (JS.lit "src"))
  /\ Configuration.new (Examples.node Examples.env_empty_root None)
     = Throw (Configuration.WorkflowFileNotFound
                (JS.lit "/work/.github/workflows/jsdoc-automation.yml"))
  /\ (exists cfg relative,
        Configuration.new (Examples.node ∅ (Some Examples.workflow)) = Ok cfg
        /\ Configuration.rootDirectory cfg
           = Some {| Configuration.absolute := JS.lit "/work/src";
                     Configuration.relative := relative |}
        /\ Stated.leading_slashes_stripped (JS.lit "src") relative).
Proof.
  split; [|split].
  - eexists. split; reflexivity.
  - apply (root_directory_resolution (Examples.node Examples.env_empty_root None));
      [right|]; reflexivity.
  - destruct (root_directory_resolution (Examples.node ∅ (Some Examples.workflow)))
      as [_ Hfallback].
    destruct (Hfallback (or_introl eq_refl)) as [_ Hfile].
    destruct (Hfile (JS.lit "on: {}") Examples.workflow eq_refl eq_refl eq_refl)
      as [_ Hdeclared].
    apply (Hdeclared (JS.lit "src")); [reflexivity | discriminate].
Defined.

(** C10 as stated fails when [INPUT_ROOT_DIRECTORY] is set to the empty
    string: the relative root path is then the default of the workflow
    file, not the stripped value. *)
Lemma root_directory_empty_string :
  ~ (forall value,
       Configuration.env (Examples.node Examples.env_empty_root (Some Examples.workflow))
         !! "INPUT_ROOT_DIRECTORY" = Some value ->
       exists cfg,
         Configuration.new (Examples.node Examples.env_empty_root (Some Examples.workflow))
         = Ok cfg
         /\ Configuration.relativePath cfg = Some (JS.strip_leading_slashes value)).
Proof.
  intros H. destruct (H [] eq_refl) as (cfg & Hcfg & Hrel).
  vm_compute in Hcfg. injection Hcfg as <-. discriminate Hrel.
Qed.

(** C5.  Constructing a [GitManager] throws if and only if
    [GITHUB_ACCESS_TOKEN] is unset or empty; when it holds a token,
    construction succeeds and the API client is initialised with that
    token. *)
Theorem constructor_requires_token
    (env : gmap string jsstring) (repository : Repository) :
  ((exists e, GitManager.new env repository = Throw e)
   <-> env !! "GITHUB_ACCESS_TOKEN" = None \/ env !! "GITHUB_ACCESS_TOKEN" = Some [])
  /\ (forall token,
        env !! "GITHUB_ACCESS_TOKEN" = Some token -> token <> [] ->
        GitManager.new env repository
        = Ok {| GitManager.repository := repository;
                GitManager.octokit := {| GitManager.auth := token |} |}).
Proof.
  unfold GitManager.new. split.
  - rewrite <- defined_truthy_spec.
    destruct (JS.defined_truthy (env !! "GITHUB_ACCESS_TOKEN")); simpl; split.
    + intros [e He]. discriminate He.
    + discriminate.
    + reflexivity.
    + intros _. eauto.
  - intros token Htoken Hne. rewrite Htoken. simpl.
    apply truthy_nonempty in Hne. now rewrite Hne.
Qed.

Lemma constructor_requires_token_witness :
  GitManager.new Examples.env_token Examples.repository
  = Ok {| GitManager.repository := Examples.repository;
          GitManager.octokit := {| GitManager.auth := JS.lit "ghp_example" |} |}
  /\ exists e, GitManager.new ∅ Examples.repository = Throw e.
Proof.
  split.
  - apply (constructor_requires_token Examples.env_token Examples.repository);
      [reflexivity | discriminate].
  - apply (constructor_requires_token ∅ Examples.repository). left. reflexivity.
Defined.

(** ** GitManager *)

Section GitManagerFacts.

Import GitManager.

Variable this : t.

Let owner_ : jsstring := owner (repository this).
Let repo_ : option jsstring := name (repository this).

(** C4.  When the listing of the pull requests of the head branch
    returns at least one, [createPullRequest] resolves having issued
    that listing and nothing else: no pull request is created and no
    reviewer is requested.  A pull request is created only when the
    listing returned none. *)
Theorem existing_pull_request_not_duplicated
    (options : CreatePullRequestOptions) (remote : Remote) :
  let listing := pulls_list owner_ repo_ (head options) in
  (forall existing,
     remote [] listing = Ok existing -> existing <> [] ->
     run (createPullRequest this options) remote = ([listing], Ok tt))
  /\ (forall r,
        In r (run (createPullRequest this options) remote).1 ->
        is_pulls_create r = true ->
        remote [] listing = Ok []).
Proof.
  intros listing.
  unfold run, createPullRequest, try_catch, bind, await, ret, throw.
  fold owner_ repo_. simpl. fold listing.
  destruct (remote [] listing) as [[|pr0 existing]|e]; simpl; split;
    try reflexivity; try congruence.
  - intros r [<-|[]]. discriminate.
  - intros r [<-|[]]. discriminate.
Qed.

(** The requests [createPullRequest] issues once the listing is empty and
    the pull request is created. *)
Lemma createPullRequest_log
    (options : CreatePullRequestOptions) (remote : Remote) (pr : PullRequest) :
  let listing := pulls_list owner_ repo_ (head options) in
  let creation :=
    pulls_create owner_ repo_ (title options) (body options) (head options)
      (base options) (labels options) in
  remote [] listing = Ok [] ->
  remote [listing] creation = Ok pr ->
  (run (createPullRequest this options) remote).1
  = match reviewers options with
    | None => [listing; creation]
    | Some configured =>
        if (0 <? length configured)%nat then
          match remote [listing; creation] users_getAuthenticated with
          | Throw _ => [listing; creation; users_getAuthenticated]
          | Ok user =>
              let requested :=
                List.filter (fun x => negb (JS.eqb (JS.trim x) (login user))) configured in
              if (0 <? length requested)%nat then
                [listing; creation; users_getAuthenticated;
                 pulls_requestReviewers owner_ repo_ (number pr) requested]
              else [listing; creation; users_getAuthenticated]
          end
        else [listing; creation]
    end.
Proof.
  intros listing creation Hlist Hcreate.
  unfold run, createPullRequest, try_catch, bind, await, ret, throw.
  fold owner_ repo_. simpl. fold listing. rewrite Hlist. simpl.
  fold creation. rewrite Hcreate. simpl.
  destruct (reviewers options) as [configured|]; [|reflexivity].
  destruct (0 <? length configured)%nat; [|reflexivity]. simpl.
  destruct (remote [listing; creation] users_getAuthenticated) as [user|e];
    [|reflexivity]. simpl.
  destruct (0 <? length (List.filter _ configured))%nat; [|reflexivity]. simpl.
  match goal with
  | |- context [match ?answer with Ok _ => _ | Throw _ => _ end] => destruct answer
  end; reflexivity.
Qed.

Lemma filter_not_author (author : jsstring) (configured : list jsstring) (x : jsstring) :
  In x (List.filter (fun x => negb (JS.eqb (JS.trim x) author)) configured)
  <-> In x configured /\ JS.trim x <> author.
Proof.
  rewrite filter_In, negb_true_iff.
  rewrite <- not_true_iff_false, eqb_eq. reflexivity.
Qed.

Lemma length_positive {A} (l : list A) : (0 <? length l)%nat = false <-> l = [].
Proof. destruct l; cbn; split; intros H; (reflexivity || discriminate H). Qed.

(** C9.  Once the pull request is created, every reviewer request in the
    log is for that pull request and names exactly the configured
    reviewers whose trimmed username differs from the login of the
    authenticated user, of which there is at least one; such a request is
    issued whenever one of them remains; and no reviewer request is issued
    when the reviewer list is absent or empty or every configured reviewer
    is the author. *)
Theorem reviewers_exclude_author
    (options : CreatePullRequestOptions) (remote : Remote) (pr : PullRequest) :
  let listing := pulls_list owner_ repo_ (head options) in
  let creation :=
    pulls_create owner_ repo_ (title options) (body options) (head options)
      (base options) (labels options) in
  let log := (run (createPullRequest this options) remote).1 in
  remote [] listing = Ok [] ->
  remote [listing] creation = Ok pr ->
  (forall r,
     In r log -> is_requestReviewers r = true ->
     exists configured user requested,
       reviewers options = Some configured
       /\ remote [listing; creation] users_getAuthenticated = Ok user
       /\ r = pulls_requestReviewers owner_ repo_ (number pr) requested
       /\ requested <> []
       /\ (forall x, In x requested <-> In x configured /\ JS.trim x <> login user))
  /\ (forall configured user,
        reviewers options = Some configured ->
        remote [listing; creation] users_getAuthenticated = Ok user ->
        (exists x, In x configured /\ JS.trim x <> login user) ->
        exists requested,
          In (pulls_requestReviewers owner_ repo_ (number pr) requested) log)
  /\ (reviewers options = None
      \/ reviewers options = Some []
      \/ (exists configured user,
            reviewers options = Some configured
            /\ remote [listing; creation] users_getAuthenticated = Ok user
            /\ Forall (fun x => JS.trim x = login user) configured) ->
      forall r, In r log -> is_requestReviewers r = false).
Proof.
  intros listing creation log Hlist Hcreate. subst log.
  rewrite (createPullRequest_log options remote pr Hlist Hcreate).
  clear Hlist Hcreate. subst listing creation.
  destruct (reviewers options) as [configured|] eqn:Hrev.
  2:{ split; [|split].
      - intros r [<-|[<-|[]]]; discriminate.
      - intros ? ? H. discriminate H.
      - intros _ r [<-|[<-|[]]]; reflexivity. }
  destruct (0 <? length configured)%nat eqn:Hlen.
  2:{ apply length_positive in Hlen. subst configured. split; [|split].
      - intros r [<-|[<-|[]]]; discriminate.
      - intros ? ? H _ (x & Hx & _). injection H as <-. destruct Hx.
      - intros _ r [<-|[<-|[]]]; reflexivity. }
  match goal with
  | |- context [match ?answer with Ok _ => _ | Throw _ => _ end] =>
      destruct answer as [user|e] eqn:Huser
  end.
  2:{ split; [|split].
      - intros r [<-|[<-|[<-|[]]]]; discriminate.
      - intros ? ? _ H. discriminate H.
      - intros _ r [<-|[<-|[<-|[]]]]; reflexivity. }
  cbv zeta.
  set (requested := List.filter _ configured).
  pose proof (filter_not_author (login user) configured) as Hrequested.
  fold requested in Hrequested.
  destruct (0 <? length requested)%nat eqn:Hsome.
  - split; [|split].
    + intros r [<-|[<-|[<-|[<-|[]]]]]; try discriminate. intros _.
      exists configured, user, requested.
      split; [reflexivity|]. split; [reflexivity|]. split; [reflexivity|].
      split; [|exact Hrequested].
      intros Hnil. rewrite Hnil in Hsome. discriminate Hsome.
    + intros ? ? _ _ _. exists requested. simpl. tauto.
    + intros [H|[H|(configured0 & user0 & H1 & H2 & Hall)]]; try discriminate.
      * injection H as ->. discriminate Hlen.
      * injection H1 as <-. injection H2 as <-.
        destruct requested as [|x0 rest] eqn:E; [discriminate Hsome|].
        assert (Hin : In x0 (x0 :: rest)) by (left; reflexivity).
        apply Hrequested in Hin as [Hin Hne].
        rewrite Forall_forall in Hall. elim Hne. apply Hall.
        apply list_elem_of_In. exact Hin.
  - apply length_positive in Hsome. split; [|split].
    + intros r [<-|[<-|[<-|[]]]]; discriminate.
    + intros ? ? H1 H2 (x & Hx). injection H1 as <-. injection H2 as <-.
      apply Hrequested in Hx. rewrite Hsome in Hx. destruct Hx.
    + intros _ r [<-|[<-|[<-|[]]]]; reflexivity.
Qed.

(** C8.  [commitFile] first reads the file on the branch.  When the read
    fails with status 404, it issues one write without a sha and resolves
    or rejects as that write does, so the call succeeds when the file is
    created.  When the read succeeds, the write that follows carries the
    sha that was read, and the call succeeds when that write does.  A
    read error with any other status is rethrown as it is, with no write
    issued. *)
Theorem commitFile_creates_or_updates
    (base64 : jsstring -> jsstring)
    (branchName filePath content message : jsstring) (remote : Remote) :
  let posixFilePath := JS.backslashes_to_slashes filePath in
  let reading := repos_getContent owner_ repo_ posixFilePath branchName in
  let writing sha :=
    repos_createOrUpdateFileContents owner_ repo_ posixFilePath message
      (base64 content) sha branchName in
  let outcome := run (commitFile base64 this branchName filePath content message) remote in
  (forall error,
     remote [] reading = Throw error -> status error = Some 404%Z ->
     outcome = ([reading; writing None], remote [reading] (writing None))
     /\ (remote [reading] (writing None) = Ok tt -> outcome.2 = Ok tt))
  /\ (forall data,
        remote [] reading = Ok data ->
        firstn 2 outcome.1 = [reading; writing (sha data)]
        /\ (remote [reading] (writing (sha data)) = Ok tt ->
            outcome = ([reading; writing (sha data)], Ok tt)))
  /\ (forall error,
        remote [] reading = Throw error -> status error <> Some 404%Z ->
        outcome = ([reading], Throw error)).
Proof.
  intros posixFilePath reading writing outcome. subst outcome.
  unfold run, commitFile, try_catch, bind, await, ret, throw.
  fold owner_ repo_ posixFilePath. simpl. fold reading.
  split; [|split].
  - intros error Hread H404. rewrite Hread. simpl.
    rewrite bool_decide_eq_true_2 by exact H404. simpl.
    change (repos_createOrUpdateFileContents owner_ repo_ posixFilePath message
              (base64 content) None branchName) with (writing None).
    split; [reflexivity|]. intros ->. reflexivity.
  - intros data Hread. rewrite Hread. simpl.
    change (repos_createOrUpdateFileContents owner_ repo_ posixFilePath message
              (base64 content) (sha data) branchName) with (writing (sha data)).
    split.
    + destruct (remote [reading] (writing (sha data))) as [[]|e]; simpl;
        [reflexivity|].
      destruct (bool_decide (status e = Some 404%Z)); reflexivity.
    + intros ->. reflexivity.
  - intros error Hread Hother. rewrite Hread. simpl.
    rewrite bool_decide_eq_false_2 by exact Hother. reflexivity.
Qed.

End GitManagerFacts.

Lemma existing_pull_request_not_duplicated_witness :
  GitManager.run
    (GitManager.createPullRequest Examples.manager
       (Examples.options (Some [JS.lit "alice"])))
    (Examples.remote [{| GitManager.number := 7 |}] (Throw Examples.not_found))
  = ([GitManager.pulls_list (JS.lit "nydiokar") (Some (JS.lit "autodoc"))
        (JS.lit "autodocs-1")],
     Ok tt).
Proof.
  apply (existing_pull_request_not_duplicated Examples.manager
           (Examples.options (Some [JS.lit "alice"]))
           (Examples.remote [{| GitManager.number := 7 |}] (Throw Examples.not_found)))
    with (existing := [{| GitManager.number := 7 |}]);
    [reflexivity | discriminate].
Defined.

Lemma reviewers_exclude_author_witness :
  exists requested,
    In (GitManager.pulls_requestReviewers (JS.lit "nydiokar") (Some (JS.lit "autodoc"))
          12 requested)
       (GitManager.run
          (GitManager.createPullRequest Examples.manager
             (Examples.options (Some [JS.lit " octocat "; JS.lit "alice"])))
          (Examples.remote [] (Throw Examples.not_found))).1.
Proof.
  destruct (reviewers_exclude_author Examples.manager
              (Examples.options (Some [JS.lit " octocat "; JS.lit "alice"]))
              (Examples.remote [] (Throw Examples.not_found))
              {| GitManager.number := 12 |} eq_refl eq_refl) as (_ & Hissued & _).
  apply (Hissued [JS.lit " octocat "; JS.lit "alice"]
           {| GitManager.login := JS.lit "octocat" |} eq_refl eq_refl).
  exists (JS.lit "alice"). split; [right; left; reflexivity | discriminate].
Defined.

Example reviewers_example :
  (GitManager.run
     (GitManager.createPullRequest Examples.manager
        (Examples.options (Some [JS.lit " octocat "; JS.lit "alice"])))
     (Examples.remote [] (Throw Examples.not_found))).1
  = [GitManager.pulls_list (JS.lit "nydiokar") (Some (JS.lit "autodoc"))
       (JS.lit "autodocs-1");
     GitManager.pulls_create (JS.lit "nydiokar") (Some (JS.lit "autodoc"))
       (JS.lit "JSDoc Generation")
       (JS.lit "Automated JSDoc generation for the codebase")
       (JS.lit "autodocs-1") (JS.lit "develop")
       (Some [JS.lit "documentation"; JS.lit "automated-pr"]);
     GitManager.users_getAuthenticated;
     GitManager.pulls_requestReviewers (JS.lit "nydiokar") (Some (JS.lit "autodoc"))
       12 [JS.lit "alice"]].
Proof. reflexivity. Qed.

Lemma commitFile_creates_or_updates_witness :
  GitManager.run
    (GitManager.commitFile Examples.base64 Examples.manager
       (JS.lit "autodocs-1") (JS.lit "src\cli.ts") (JS.lit "// docs") (JS.lit "Generated"))
    (Examples.remote [] (Throw Examples.not_found))
  = ([GitManager.repos_getContent (JS.lit "nydiokar") (Some (JS.lit "autodoc"))
        (JS.lit "src/cli.ts") (JS.lit "autodocs-1");
      GitManager.repos_createOrUpdateFileContents (JS.lit "nydiokar")
        (Some (JS.lit "autodoc")) (JS.lit "src/cli.ts") (JS.lit "Generated")
        (JS.lit "// docs") None (JS.lit "autodocs-1")],
     Ok tt)
  /\ GitManager.run
       (GitManager.commitFile Examples.base64 Examples.manager
          (JS.lit "autodocs-1") (JS.lit "src\cli.ts") (JS.lit "// docs") (JS.lit "Generated"))
       (Examples.remote [] (Throw Examples.server_error))
     = ([GitManager.repos_getContent (JS.lit "nydiokar") (Some (JS.lit "autodoc"))
           (JS.lit "src/cli.ts") (JS.lit "autodocs-1")],
        Throw Examples.server_error).
Proof.
  split.
  - apply (commitFile_creates_or_updates Examples.manager Examples.base64
             (JS.lit "autodocs-1") (JS.lit "src\cli.ts") (JS.lit "// docs")
             (JS.lit "Generated") (Examples.remote [] (Throw Examples.not_found)))
      with (error := Examples.not_found); reflexivity.
  - apply (commitFile_creates_or_updates Examples.manager Examples.base64
             (JS.lit "autodocs-1") (JS.lit "src\cli.ts") (JS.lit "// docs")
             (JS.lit "Generated") (Examples.remote [] (Throw Examples.server_error)))
      with (error := Examples.server_error); [reflexivity | discriminate].
Defined.

(** ** Coverage Analyzer *)

Section AnalyzerFacts.

Import Core.

(** Two ranges that both hold a line intersect exactly when they share
    one. *)
Lemma intersects_shared_line (a b : LineRange) :
  (first_line a <= last_line a)%nat -> (first_line b <= last_line b)%nat ->
  intersects a b = true
  <-> exists line, Stated.in_lines line a /\ Stated.in_lines line b.
Proof.
  intros Ha Hb. unfold intersects, Stated.in_lines.
  rewrite andb_true_iff, !Nat.leb_le. split.
  - intros [H1 H2]. exists (Nat.max (first_line a) (first_line b)). lia.
  - intros (line & H1 & H2). lia.
Qed.

Lemma untouched_not_touched (changed : list LineRange) (d : Declaration) :
  Stated.untouched changed d -> touched changed d = false.
Proof.
  unfold touched. induction 1 as [|c changed [Hh Hb] _ IH]; [reflexivity|].
  apply orb_false_iff in IH as [IHh IHb].
  simpl. rewrite Hh, Hb, IHh, IHb. reflexivity.
Qed.

Lemma declared_before_change (d : Declaration) (a b lo hi : nat) :
  Stated.declared_at d a b -> (b < lo)%nat ->
  Stated.untouched [{| first_line := lo; last_line := hi |}] d.
Proof.
  intros (Ha & Hb & H1 & H2 & H3 & H4) Hlt.
  constructor; [|constructor]. unfold intersects. simpl.
  split; apply andb_false_iff; right; apply Nat.leb_gt; lia.
Qed.

Lemma declared_around_change (d : Declaration) (a b lo hi : nat) :
  Stated.declared_at d a b -> (a <= hi)%nat -> (lo <= b)%nat -> (lo <= hi)%nat ->
  touched [{| first_line := lo; last_line := hi |}] d = true.
Proof.
  intros (Ha & Hb & H1 & H2 & H3 & H4) Hlo Hhi Hle.
  unfold touched, intersects. simpl. rewrite !orb_false_r.
  destruct (Nat.le_gt_cases lo (last_line (header_lines d))) as [Hhead|Hhead].
  - apply orb_true_iff. left. apply andb_true_iff.
    split; apply Nat.leb_le; lia.
  - apply orb_true_iff. right. apply andb_true_iff.
    split; apply Nat.leb_le; lia.
Qed.

(** C2.  In incremental mode a declaration whose header range and body
    range intersect no changed range of its file receives [Skip], with or
    without a documentation comment.  With lines 10 to 12 changed in a
    file whose declarations are at lines 1 to 5 and 9 to 20, the first is
    skipped and the second is not. *)
Theorem incremental_scoping :
  (forall changes excluded path d,
     (forall changed, changes !! path = Some changed -> Stated.untouched changed d) ->
     verdict (Incremental changes) excluded path d = Skip)
  /\ (forall path d1 d2,
        Stated.declared_at d1 1 5 -> Stated.declared_at d2 9 20 ->
        exists v2,
          analyze (Incremental {[ path := [{| first_line := 10; last_line := 12 |}] ]})
            false path [d1; d2]
          = [(d1, Skip); (d2, v2)]
          /\ v2 <> Skip).
Proof.
  split.
  - intros changes excluded path d H. unfold verdict.
    destruct excluded; [reflexivity|].
    destruct (changes !! path) as [changed|] eqn:E; [|reflexivity].
    rewrite (untouched_not_touched changed d (H changed eq_refl)). reflexivity.
  - intros path d1 d2 H1 H2. unfold analyze, verdict. simpl.
    rewrite lookup_singleton_eq.
    rewrite (untouched_not_touched _ d1 (declared_before_change d1 1 5 10 12 H1 ltac:(lia))).
    rewrite (declared_around_change d2 9 20 10 12 H2) by lia.
    eexists. split; [reflexivity|].
    destruct (documented d2); discriminate.
Qed.

End AnalyzerFacts.

Lemma incremental_scoping_witness :
  exists v2,
    Core.analyze
      (Core.Incremental
         {[ "src/math.ts" := [{| Core.first_line := 10; Core.last_line := 12 |}] ]})
      false "src/math.ts" [Examples.add; Examples.sub]
    = [(Examples.add, Core.Skip); (Examples.sub, v2)]
    /\ v2 <> Core.Skip.
Proof.
  destruct incremental_scoping as [_ Hexample].
  apply Hexample; unfold Stated.declared_at; simpl; lia.
Defined.

(** ** Patch Writer *)

Section PatchWriterFacts.

Import Core.

Lemma insert_edit_Permutation (e : Edit) (sorted : list Edit) :
  Permutation (insert_edit e sorted) (e :: sorted).
Proof.
  induction sorted as [|x rest IH]; simpl.
  - reflexivity.
  - destruct (edit_leb e x); [reflexivity|].
    rewrite IH. apply perm_swap.
Qed.

Lemma merge_Permutation (edits : list Edit) : Permutation (merge edits) edits.
Proof.
  induction edits as [|e edits IH]; simpl.
  - reflexivity.
  - rewrite insert_edit_Permutation. now rewrite IH.
Qed.

Lemma inserted_before_Permutation (i : nat) (l l' : list Edit) :
  Permutation l l' -> inserted_before i l = inserted_before i l'.
Proof. induction 1; simpl; lia. Qed.

Lemma removed_before_Permutation (i : nat) (l l' : list Edit) :
  Permutation l l' -> removed_before i l = removed_before i l'.
Proof. induction 1; simpl; lia. Qed.

Lemma outside_Permutation (i : nat) (l l' : list Edit) :
  Permutation l l' -> outside i l -> outside i l'.
Proof. unfold outside. intros H. now rewrite H. Qed.

Lemma new_offset_merge (i : nat) (edits : list Edit) :
  new_offset i (merge edits) = new_offset i edits.
Proof.
  unfold new_offset.
  rewrite (inserted_before_Permutation i _ _ (merge_Permutation edits)).
  now rewrite (removed_before_Permutation i _ _ (merge_Permutation edits)).
Qed.

(** The conditions that [well_formed_from] checks on the first edit. *)
Lemma well_formed_from_cons (pos size : nat) (e : Edit) (rest : list Edit) :
  well_formed_from pos size (e :: rest) = true
  <-> (pos <= edit_start e)%nat /\ (edit_start e <= edit_end e)%nat
      /\ (edit_end e <= size)%nat /\ well_formed_from (edit_end e) size rest = true.
Proof.
  simpl. rewrite !andb_true_iff, !Nat.leb_le. tauto.
Qed.

(** Edits after offset [i] neither insert nor remove anything before
    it. *)
Lemma nothing_before (pos size i : nat) (patch : list Edit) :
  well_formed_from pos size patch = true -> (i < pos)%nat ->
  inserted_before i patch = 0%nat /\ removed_before i patch = 0%nat.
Proof.
  revert pos. induction patch as [|e rest IH]; intros pos Hwf Hlt; [now split|].
  apply well_formed_from_cons in Hwf as (H1 & H2 & H3 & Hrest).
  destruct (IH (edit_end e) Hrest ltac:(lia)) as [Hi Hr].
  simpl. rewrite Hi, Hr.
  destruct (Nat.leb_spec (edit_end e) i); [lia | now split].
Qed.

(** The bytes removed before [i] all lie between [pos] and [i]. *)
Lemma removed_before_bound (pos size i : nat) (patch : list Edit) :
  well_formed_from pos size patch = true -> (pos <= i)%nat ->
  (pos + removed_before i patch <= i)%nat.
Proof.
  revert pos. induction patch as [|e rest IH]; intros pos Hwf Hle; simpl; [lia|].
  apply well_formed_from_cons in Hwf as (H1 & H2 & H3 & Hrest).
  destruct (Nat.leb_spec (edit_end e) i) as [Hend|Hend].
  - specialize (IH (edit_end e) Hrest Hend). lia.
  - destruct (nothing_before _ _ i _ Hrest Hend) as [_ Hr]. lia.
Qed.

(** Applying the edits from the last to the first gives the single
    left-to-right splice: an edit never moves a range that is still to be
    applied. *)
Lemma apply_backward_splice_forward (pos : nat) (original : text) (patch : list Edit) :
  well_formed_from pos (length original) patch = true ->
  apply_backward original patch
  = (take pos original ++ splice_forward pos original patch)%list.
Proof.
  unfold apply_backward. revert pos.
  induction patch as [|e rest IH]; intros pos Hwf; simpl.
  - now rewrite take_drop.
  - apply well_formed_from_cons in Hwf as (H1 & H2 & H3 & Hrest).
    rewrite fold_left_app. simpl. rewrite (IH (edit_end e) Hrest).
    unfold splice at 1.
    rewrite take_app_le by (rewrite length_take; lia).
    rewrite take_take, Nat.min_l by lia.
    rewrite drop_app_length' by (rewrite length_take; lia).
    rewrite (app_assoc (take pos original)), take_take_drop.
    replace (pos + (edit_start e - pos))%nat with (edit_start e) by lia.
    reflexivity.
Qed.

(** In the single splice, a byte of the original that lies in no range is
    found at its offset, moved by what the edits before it insert and
    remove. *)
Lemma splice_forward_lookup (pos i : nat) (original : text) (patch : list Edit) :
  well_formed_from pos (length original) patch = true ->
  (pos <= i)%nat -> outside i patch ->
  splice_forward pos original patch
    !! (i - pos + inserted_before i patch - removed_before i patch)%nat
  = original !! i.
Proof.
  revert pos. induction patch as [|e rest IH]; intros pos Hwf Hle Hout; simpl.
  - rewrite lookup_drop. f_equal. lia.
  - apply well_formed_from_cons in Hwf as (H1 & H2 & H3 & Hrest).
    inversion Hout as [|? ? Hout_e Hout_rest]; subst.
    assert (Hlen : length (take (edit_start e - pos) (drop pos original))
                   = (edit_start e - pos)%nat).
    { rewrite length_take, length_drop. lia. }
    destruct (Nat.leb_spec (edit_end e) i) as [Hend|Hend].
    + pose proof (removed_before_bound _ _ i _ Hrest Hend) as Hbound.
      rewrite lookup_app_r by (rewrite Hlen; lia).
      rewrite lookup_app_r by (rewrite Hlen; lia).
      rewrite Hlen. rewrite <- (IH (edit_end e) Hrest Hend Hout_rest).
      f_equal. lia.
    + assert (Hbefore : (i < edit_start e)%nat) by lia.
      destruct (nothing_before _ _ i _ Hrest Hend) as [-> ->].
      rewrite lookup_app_l by (rewrite Hlen; lia).
      rewrite lookup_take_lt by lia.
      rewrite lookup_drop. f_equal. lia.
Qed.

(** C1.  When the merged edits of a file pass the check made before
    writing, every byte of the original text that lies in no patched
    range is found unchanged in the output, at its offset moved by the
    edits that end before it; this holds for any number of edits, none
    included.  When the check fails nothing is written and the text is
    the original. *)
Theorem byte_preservation (original : text) (edits : list Edit) :
  (well_formed original (merge edits) = true ->
   forall i,
     outside i edits ->
     output_text original (write original edits) !! new_offset i edits = original !! i)
  /\ (well_formed original (merge edits) = false ->
      output_text original (write original edits) = original).
Proof.
  split.
  - intros Hwf i Hout.
    destruct edits as [|e edits'].
    { simpl. unfold new_offset. simpl. f_equal. lia. }
    remember (e :: edits') as edits eqn:E.
    assert (Hwrite : write original edits = Patched (apply_backward original (merge edits))).
    { unfold write. rewrite E, <- E. now rewrite Hwf. }
    rewrite Hwrite. simpl.
    rewrite (apply_backward_splice_forward 0 original (merge edits) Hwf).
    rewrite take_0. simpl.
    rewrite <- new_offset_merge. unfold new_offset.
    rewrite <- (splice_forward_lookup 0 i original (merge edits) Hwf ltac:(lia)).
    + f_equal. lia.
    + apply (outside_Permutation i edits); [|exact Hout].
      symmetry. apply merge_Permutation.
  - intros Hwf. unfold write.
    destruct edits; [reflexivity|]. now rewrite Hwf.
Qed.

End PatchWriterFacts.

Lemma byte_preservation_witness :
  Core.output_text Examples.source (Core.write Examples.source Examples.edits) !! 72%nat
  = Examples.source !! 40%nat.
Proof.
  apply (proj1 (byte_preservation Examples.source Examples.edits) eq_refl 40%nat).
  repeat constructor; unfold Core.edit_start, Core.edit_end; simpl; lia.
Defined.

Example patched_source :
  Core.write Examples.source Examples.edits
  = Core.Patched
      (list_byte_of_string
         "/** Adds two numbers. */ function add(a, b) {} /** Subtracts. */ function sub(a, b) {}").
Proof. reflexivity. Qed.

(** ** Orchestrator *)

Section OrchestratorFacts.

Import Core.

Lemma omap_cons {A B} (f : A -> option B) (a : A) (l : list A) :
  omap f (a :: l) = match f a with Some b => b :: omap f l | None => omap f l end.
Proof. reflexivity. Qed.

Lemma omap_pointwise {A B} (f g : A -> option B) (l : list A) :
  (forall a, f a = g a) -> omap f l = omap g l.
Proof.
  intros H. induction l as [|a l IH]; [reflexivity|].
  now rewrite !omap_cons, H, IH.
Qed.

Lemma omap_map {A B C} (f : B -> option C) (g : A -> B) (l : list A) :
  omap f (map g l) = omap (fun a => f (g a)) l.
Proof.
  induction l as [|a l IH]; [reflexivity|].
  simpl map. now rewrite !omap_cons, IH.
Qed.

Lemma In_omap {A B} (f : A -> option B) (l : list A) (b : B) :
  In b (omap f l) <-> exists a, In a l /\ f a = Some b.
Proof.
  induction l as [|a l IH].
  - split; [intros [] | intros (a & [] & _)].
  - rewrite omap_cons. destruct (f a) as [b'|] eqn:E; simpl; rewrite IH; split.
    + intros [<-|(a' & Hin & Ha')]; [exists a; split; [now left | exact E]|].
      exists a'. split; [now right | exact Ha'].
    + intros (a' & [<-|Hin] & Ha'); [left; congruence | right; eauto].
    + intros (a' & Hin & Ha'). exists a'. split; [now right | exact Ha'].
    + intros (a' & [<-|Hin] & Ha'); [congruence | eauto].
Qed.

(** The edit that the pipeline makes for a declaration is the one
    section 4.5 asks for. *)
Lemma generated_edit_expected (st : Stages) (path : string) (d : Declaration) :
  generated_edit st path (d, verdict (mode st) (excluded st path) path d)
  = StatedRun.expected_edit st path d.
Proof.
  unfold generated_edit, StatedRun.expected_edit, edit_for. simpl.
  destruct (verdict (mode st) (excluded st path) path d);
    destruct (generate st path d) as [doc|why]; reflexivity.
Qed.

Lemma generated_edits_expected (st : Stages) (path : string) (decls : list Declaration) :
  omap (generated_edit st path) (analyze (mode st) (excluded st path) path decls)
  = omap (StatedRun.expected_edit st path) decls.
Proof.
  unfold analyze. rewrite omap_map. apply omap_pointwise.
  intros d. apply generated_edit_expected.
Qed.

(** What is reported for a file is what its stages returned. *)
Lemma reported_outcome_result (st : Stages) (path : string) (o : Outcome) :
  StatedRun.file_result st path o <-> o = reported_outcome st path.
Proof.
  unfold reported_outcome, process_file. split.
  - intros [Hread|raw Hread Hparse|raw decls Hread Hparse].
    + now rewrite Hread.
    + rewrite Hread. simpl. now rewrite Hparse.
    + rewrite Hread. simpl. rewrite Hparse. simpl.
      now rewrite generated_edits_expected.
  - intros ->. destruct (read_file st path) as [raw|] eqn:Hread; simpl.
    + destruct (extract st _) as [decls|] eqn:Hparse; simpl.
      * rewrite generated_edits_expected. now apply (StatedRun.processed st path raw).
      * now apply (StatedRun.parse_failure st path raw).
    + now apply StatedRun.unreadable.
Qed.

Lemma reported_failures_failed
    (st : Stages) (path : string) (d : Declaration) (why : GenerationFailure) :
  In (d, why) (reported_failures st path) <-> StatedRun.generation_failed st path d why.
Proof.
  unfold reported_failures, process_file, StatedRun.generation_failed.
  destruct (read_file st path) as [raw|] eqn:Hread; simpl.
  2:{ split; [intros [] | intros (raw & decls & H & _); discriminate H]. }
  destruct (extract st _) as [decls|] eqn:Hparse; simpl.
  2:{ split; [intros []|]. intros (raw' & decls & H & H' & _).
      injection H as <-. rewrite Hparse in H'. discriminate H'. }
  unfold analyze. rewrite omap_map, In_omap. unfold generation_failure. simpl. split.
  - intros (d' & Hin & Hfailed). exists raw, decls.
    split; [reflexivity|]. split; [exact Hparse|].
    destruct (verdict (mode st) (excluded st path) path d') eqn:Hv;
      try discriminate Hfailed;
      destruct (generate st path d') as [doc|why'] eqn:Hg; try discriminate Hfailed;
      injection Hfailed as <- <-; rewrite Hv, Hg; repeat split; auto; discriminate.
  - intros (raw' & decls' & H & H' & Hin & Hv & Hg).
    injection H as <-. rewrite Hparse in H'. injection H' as <-.
    exists d. split; [exact Hin|]. rewrite Hg.
    destruct (verdict (mode st) (excluded st path) path d); [congruence | |]; reflexivity.
Qed.

(** The loop over the files never throws, and adds one entry for every
    file, in order. *)
Lemma process_files_report (st : Stages) (paths : list string) (run : PipelineRun) :
  exists run',
    process_files st paths run = Ok run'
    /\ outcomes run'
       = (outcomes run ++ map (fun p => (p, reported_outcome st p)) paths)%list
    /\ failed_declarations run'
       = (failed_declarations run
          ++ concat (map (fun p => map (pair p) (reported_failures st p)) paths))%list.
Proof.
  revert run. induction paths as [|p paths IH]; intros run; simpl.
  - exists run. now rewrite !app_nil_r.
  - unfold record_file, reported_outcome, reported_failures.
    destruct (process_file st p) as [report|reason]; simpl.
    + destruct (IH {| outcomes := (outcomes run ++ [(p, outcome report)])%list;
                      declarations :=
                        (declarations run ++ map (pair p) (verdicts report))%list;
                      failed_declarations :=
                        (failed_declarations run
                         ++ map (pair p) (generation_failures report))%list |})
        as (run' & Hrun' & Hout & Hfail).
      exists run'. split; [exact Hrun'|]. simpl in Hout, Hfail.
      now rewrite Hout, Hfail, <- !app_assoc.
    + destruct (IH {| outcomes := (outcomes run ++ [(p, Failed reason)])%list;
                      declarations := declarations run;
                      failed_declarations := failed_declarations run |})
        as (run' & Hrun' & Hout & Hfail).
      exists run'. split; [exact Hrun'|]. simpl in Hout, Hfail.
      now rewrite Hout, Hfail, <- !app_assoc.
Qed.

(** A file other than [F] is processed alike in two runs that differ
    only in what happens to [F]. *)
Lemma process_file_same (F G : string) (st st' : Stages) :
  same_except F st st' -> G <> F -> process_file st G = process_file st' G.
Proof.
  intros Hsame HG. unfold process_file.
  rewrite (same_read _ _ _ Hsame G HG).
  destruct (read_file st' G) as [raw|]; [|reflexivity]. simpl.
  rewrite (same_extract _ _ _ Hsame G raw HG).
  destruct (extract st' _) as [decls|]; [|reflexivity]. simpl.
  rewrite (same_mode _ _ _ Hsame), (same_excluded _ _ _ Hsame).
  rewrite (omap_pointwise (generated_edit st G) (generated_edit st' G)).
  2:{ intros dv. unfold generated_edit.
      rewrite (same_generate _ _ _ Hsame G _ HG).
      destruct (dv.2); try reflexivity;
        destruct (generate st' G dv.1); try reflexivity;
        now rewrite (same_format _ _ _ Hsame). }
  rewrite (omap_pointwise (generation_failure st G) (generation_failure st' G)).
  2:{ intros dv. unfold generation_failure.
      now rewrite (same_generate _ _ _ Hsame G _ HG). }
  reflexivity.
Qed.

Lemma others_outcomes (F : string) (st st' : Stages) (paths : list string) :
  same_except F st st' ->
  others F (map (fun p => (p, reported_outcome st p)) paths)
  = others F (map (fun p => (p, reported_outcome st' p)) paths).
Proof.
  intros Hsame. unfold others, reported_outcome.
  induction paths as [|p paths IH]; simpl; [reflexivity|].
  destruct (String.eqb_spec p F) as [->|Hne]; simpl; [exact IH|].
  now rewrite IH, (process_file_same F p st st' Hsame Hne).
Qed.

Lemma others_pairs {A} (F p : string) (l : list A) :
  others F (map (pair p) l) = if String.eqb p F then [] else map (pair p) l.
Proof.
  unfold others. induction l as [|a l IH]; simpl.
  - now destruct (String.eqb p F).
  - rewrite IH. now destruct (String.eqb p F).
Qed.

Lemma others_failures (F : string) (st st' : Stages) (paths : list string) :
  same_except F st st' ->
  others F (concat (map (fun p => map (pair p) (reported_failures st p)) paths))
  = others F (concat (map (fun p => map (pair p) (reported_failures st' p)) paths)).
Proof.
  intros Hsame. induction paths as [|p paths IH]; [reflexivity|].
  simpl. unfold others in *. rewrite !List.filter_app, IH. f_equal.
  fold (others F (map (pair p) (reported_failures st p))).
  fold (others F (map (pair p) (reported_failures st' p))).
  rewrite !others_pairs.
  destruct (String.eqb_spec p F) as [->|Hne]; [reflexivity|].
  unfold reported_failures. now rewrite (process_file_same F p st st' Hsame Hne).
Qed.

(** C3.  A run ends without a report only for a fatal error: missing
    credentials or an unreadable root.  Otherwise it ends with a report
    that has one entry for every file, in order.  The entry of a file
    says that it failed, with the reason, when the file cannot be read
    or parsed, and otherwise gives what the writer made of the edits of
    its declarations, which is a failure when the patch is not valid;
    a generation that fails is in the report with its declaration and
    reason, and only then.  What happens to one file [F] changes no
    entry of another file. *)
Theorem failure_isolation (st : Stages) :
  (forall f,
     orchestrate st = Throw f
     <-> (credentials st = false /\ f = MissingCredentials)
         \/ (credentials st = true /\ traverse st = None /\ f = RootUnreadable))
  /\ (forall paths,
        credentials st = true -> traverse st = Some paths ->
        exists run,
          orchestrate st = Ok run
          /\ map fst (outcomes run) = paths
          /\ (forall G o,
                In (G, o) (outcomes run)
                <-> In G paths /\ StatedRun.file_result st G o)
          /\ (forall G d why,
                In (G, (d, why)) (failed_declarations run)
                <-> In G paths /\ StatedRun.generation_failed st G d why)
          /\ (forall F st',
                same_except F st st' ->
                exists run',
                  orchestrate st' = Ok run'
                  /\ others F (outcomes run) = others F (outcomes run')
                  /\ others F (failed_declarations run)
                     = others F (failed_declarations run'))).
Proof.
  split.
  - intros f. unfold orchestrate.
    destruct (credentials st); simpl.
    + destruct (traverse st) as [paths|]; simpl.
      * destruct (process_files_report st paths empty_run) as (run & -> & _).
        split; [discriminate|].
        intros [[H _]|(_ & H & _)]; discriminate H.
      * split.
        -- intros H. injection H as <-. right. auto.
        -- intros [[H _]|(_ & _ & ->)]; [discriminate H | reflexivity].
    + split.
      * intros H. injection H as <-. left. auto.
      * intros [[_ ->]|[H _]]; [reflexivity | discriminate H].
  - intros paths Hcred Hpaths. unfold orchestrate. rewrite Hcred, Hpaths. simpl.
    destruct (process_files_report st paths empty_run) as (run & Hrun & Hout & Hfail).
    simpl in Hout, Hfail.
    exists run. split; [exact Hrun|]. split; [|split; [|split]].
    + rewrite Hout, map_map. simpl. apply map_id.
    + intros G o. rewrite Hout, in_map_iff, reported_outcome_result. split.
      * intros (p & H & Hin). injection H as -> <-. now split.
      * intros [Hin ->]. exists G. now split.
    + intros G d why. rewrite Hfail, in_concat, <- reported_failures_failed. split.
      * intros (l & Hl & Hin). apply in_map_iff in Hl as (p & <- & Hp).
        apply in_map_iff in Hin as (x & H & Hx). injection H as -> ->. now split.
      * intros [Hin Hfailed]. exists (map (pair G) (reported_failures st G)). split.
        -- apply (in_map (fun p => map (pair p) (reported_failures st p))). exact Hin.
        -- apply in_map. exact Hfailed.
    + intros F st' Hsame.
      destruct (process_files_report st' paths empty_run)
        as (run' & Hrun' & Hout' & Hfail').
      simpl in Hout', Hfail'.
      exists run'. split.
      * unfold orchestrate.
        rewrite <- (same_credentials _ _ _ Hsame), <- (same_traverse _ _ _ Hsame).
        rewrite Hcred, Hpaths. exact Hrun'.
      * split.
        -- rewrite Hout, Hout'. now apply others_outcomes.
        -- rewrite Hfail, Hfail'. now apply others_failures.
Qed.

End OrchestratorFacts.

Lemma stages_same_except : Core.same_except "bad.ts" (Examples.stages false) (Examples.stages true).
Proof.
  constructor; try reflexivity.
  intros G raw HG. simpl.
  destruct (String.eqb_spec G "bad.ts"); [contradiction | reflexivity].
Defined.

Lemma failure_isolation_witness :
  exists run run',
    Core.orchestrate (Examples.stages false) = Ok run
    /\ Core.orchestrate (Examples.stages true) = Ok run'
    /\ map fst (Core.outcomes run) = ["a.ts"; "bad.ts"; "b.ts"]
    /\ In ("bad.ts", Core.Failed Core.ParseFailure) (Core.outcomes run)
    /\ In ("a.ts",
           Core.Patched
             (list_byte_of_string
                "/** Adds two numbers. */ function add(a, b) {} /** old */ function sub(a, b) {}"))
         (Core.outcomes run)
    /\ In ("b.ts", Core.Unchanged) (Core.outcomes run)
    /\ In ("b.ts", (Examples.add, Core.RetriesExhausted)) (Core.failed_declarations run)
    /\ Core.others "bad.ts" (Core.outcomes run) = Core.others "bad.ts" (Core.outcomes run').
Proof.
  destruct (failure_isolation (Examples.stages false)) as [_ Hreport].
  destruct (Hreport ["a.ts"; "bad.ts"; "b.ts"] eq_refl eq_refl)
    as (run & Hrun & Hpaths & Hentries & Hfailures & Hisolated).
  destruct (Hisolated "bad.ts" (Examples.stages true) stages_same_except)
    as (run' & Hrun' & Hothers & _).
  exists run, run'. split; [exact Hrun|]. split; [exact Hrun'|].
  split; [exact Hpaths|]. split; [|split; [|split; [|split]]].
  - apply Hentries. split; [right; left; reflexivity|].
    apply (StatedRun.parse_failure _ _ Examples.source); reflexivity.
  - apply Hentries. split; [left; reflexivity|].
    apply (StatedRun.processed (Examples.stages false) "a.ts" Examples.source
             [Examples.add; Examples.sub]); reflexivity.
  - apply Hentries. split; [right; right; left; reflexivity|].
    apply (StatedRun.processed (Examples.stages false) "b.ts" Examples.source
             [Examples.add; Examples.sub]); reflexivity.
  - apply Hfailures. split; [right; right; left; reflexivity|].
    exists Examples.source, [Examples.add; Examples.sub].
    split; [reflexivity|]. split; [reflexivity|]. split; [left; reflexivity|].
    split; [discriminate | reflexivity].
  - exact Hothers.
Defined.

(** The scenario of the design document: of three files one fails to
    parse, the two others are processed, and the report marks exactly
    that one as failed. *)
Example one_failed_file :
  Core.outcomes
    <$> (match Core.orchestrate (Examples.stages false) with
         | Ok run => Some run
         | Throw _ => None
         end)
  = Some
      [("a.ts",
        Core.Patched
          (list_byte_of_string
             "/** Adds two numbers. */ function add(a, b) {} /** old */ function sub(a, b) {}"));
       ("bad.ts", Core.Failed Core.ParseFailure);
       ("b.ts", Core.Unchanged)].
Proof. reflexivity. Qed.

(** * Further properties of the code *)

(** ** Comma-separated inputs *)

Section CommaSeparatedFacts.

Import Configuration.

Lemma drop_while_clean (s : jsstring) :
  Stated.starts_clean s -> JS.drop_while JS.is_white_space s = s.
Proof. destruct s as [|c s]; simpl; [reflexivity|]. now intros ->. Qed.

Lemma drop_while_all (p : N -> bool) (s : jsstring) :
  Forall (fun c => p c = true) s -> JS.drop_while p s = [].
Proof. induction 1 as [|c s Hc _ IH]; simpl; [reflexivity|]. now rewrite Hc. Qed.

(** [trim] leaves alone a string with no white space at its ends. *)
Lemma trim_clean (s : jsstring) :
  Stated.starts_clean s -> Stated.starts_clean (rev s) -> JS.trim s = s.
Proof.
  intros Hs Hr. unfold JS.trim, JS.trimStart, JS.trimEnd.
  rewrite (drop_while_clean s Hs), (drop_while_clean (rev s) Hr).
  apply rev_involutive.
Qed.

Lemma trim_white_space (s : jsstring) :
  Forall (fun c => JS.is_white_space c = true) s -> JS.trim s = [].
Proof.
  intros H. unfold JS.trim, JS.trimStart, JS.trimEnd.
  now rewrite (drop_while_all _ s H).
Qed.

(** Every unit of the trimmed string is a unit of the string. *)
Lemma trim_incl (s : jsstring) (c : N) : In c (JS.trim s) -> In c s.
Proof.
  destruct (trim_whitespace_trimmed s) as (l & r & Hs & _).
  intros H. rewrite Hs. apply in_or_app. right. apply in_or_app. now left.
Qed.

Lemma trim_item (s : jsstring) :
  ~ In 44 s -> JS.trim s <> [] -> Clean.item (JS.trim s).
Proof.
  intros Hcomma Hne.
  destruct (trim_whitespace_trimmed s) as (l & r & _ & _ & _ & Hstart & Hend).
  split; [exact Hne|]. split; [|now split].
  intros H. apply Hcomma. now apply trim_incl.
Qed.

Lemma split_cons_separator (sep : N) (x s : jsstring) :
  ~ In sep x -> JS.split sep (x ++ sep :: s)%list = x :: JS.split sep s.
Proof.
  induction x as [|c x IH]; intros Hx; simpl.
  - now rewrite N.eqb_refl.
  - destruct (N.eqb_spec c sep) as [->|Hne]; [elim Hx; now left|].
    rewrite IH; [reflexivity|]. intros H. apply Hx. now right.
Qed.

Lemma split_single (sep : N) (x : jsstring) : ~ In sep x -> JS.split sep x = [x].
Proof.
  induction x as [|c x IH]; intros Hx; simpl; [reflexivity|].
  destruct (N.eqb_spec c sep) as [->|Hne]; [elim Hx; now left|].
  rewrite IH; [reflexivity|]. intros H. apply Hx. now right.
Qed.

(** Splitting undoes joining when no item holds the separator. *)
Lemma split_join (sep : N) (items : list jsstring) :
  items <> [] -> Forall (fun item => ~ In sep item) items ->
  JS.split sep (Stated.join sep items) = items.
Proof.
  intros Hne Hall. induction Hall as [|x rest Hx Hrest IH]; [congruence|].
  destruct rest as [|y rest].
  - simpl. now apply split_single.
  - change (Stated.join sep (x :: y :: rest))
      with (x ++ sep :: Stated.join sep (y :: rest))%list.
    rewrite (split_cons_separator sep x _ Hx). f_equal.
    apply IH. discriminate.
Qed.

Lemma join_nonempty (sep : N) (x : jsstring) (rest : list jsstring) :
  x <> [] -> Stated.join sep (x :: rest) <> [].
Proof.
  intros Hx. destruct rest; simpl; [exact Hx|].
  destruct x; [congruence | discriminate].
Qed.

Lemma split_blank (s : jsstring) :
  Clean.blank s ->
  Forall (fun item => Forall (fun c => JS.is_white_space c = true) item) (JS.split 44 s).
Proof.
  induction 1 as [|c s Hc _ IH]; simpl.
  - repeat constructor.
  - destruct (N.eqb_spec c 44) as [->|Hne].
    + constructor; [constructor | exact IH].
    + destruct Hc as [Hc|Hc]; [contradiction|].
      destruct (JS.split 44 s) as [|w ws]; [repeat constructor; exact Hc|].
      inversion IH as [|? ? Hw Hws]; subst.
      constructor; [now constructor | exact Hws].
Qed.

(** Whatever the input, [parseCommaSeparatedInput] returns clean items
    when the default list is clean. *)
Lemma parseCommaSeparatedInput_clean
    (input : option jsstring) (defaultValue : list jsstring) :
  Forall Clean.item defaultValue ->
  Forall Clean.item (parseCommaSeparatedInput input defaultValue).
Proof.
  intros Hdefault. unfold parseCommaSeparatedInput.
  destruct input as [s|]; [|exact Hdefault].
  destruct (JS.truthy s); simpl; [|exact Hdefault].
  pose proof (split_no_separator 44 s) as Hsplit.
  induction Hsplit as [|x items Hx _ IH]; simpl; [constructor|].
  destruct (JS.truthy (JS.trim x)) eqn:E; [|exact IH].
  constructor; [|exact IH].
  apply trim_item; [exact Hx|]. now apply truthy_nonempty.
Qed.

(** X2.  Clean items joined with commas are parsed back into the same
    items, in the same order. *)
Theorem parsed_join_round_trip (items defaultValue : list jsstring) :
  items <> [] -> Forall Clean.item items ->
  parseCommaSeparatedInput (Some (Stated.join 44 items)) defaultValue = items.
Proof.
  intros Hne Hall. unfold parseCommaSeparatedInput.
  assert (Htruthy : JS.truthy (Stated.join 44 items) = true).
  { destruct items as [|x rest]; [congruence|].
    apply truthy_nonempty, join_nonempty.
    inversion Hall as [|? ? Hx _]; subst. apply Hx. }
  rewrite Htruthy. simpl.
  rewrite split_join; [|exact Hne|].
  2:{ eapply Forall_impl; [exact Hall|]. intros x Hx. apply Hx. }
  clear Hne Htruthy. induction Hall as [|x rest Hx _ IH]; [reflexivity|].
  destruct Hx as (Hx & _ & Hstart & Hend).
  simpl. rewrite (trim_clean x Hstart Hend).
  apply truthy_nonempty in Hx. rewrite Hx. now rewrite IH.
Qed.

(** X3.  A non-empty input made of commas and white space only gives the
    empty list, not the default list. *)
Theorem parsed_blank_input (input : jsstring) (defaultValue : list jsstring) :
  input <> [] -> Clean.blank input ->
  parseCommaSeparatedInput (Some input) defaultValue = [].
Proof.
  intros Hne Hblank. unfold parseCommaSeparatedInput.
  apply truthy_nonempty in Hne. rewrite Hne. simpl.
  pose proof (split_blank input Hblank) as Hitems.
  induction Hitems as [|x items Hx _ IH]; [reflexivity|].
  simpl. now rewrite (trim_white_space x Hx).
Qed.

End CommaSeparatedFacts.

Lemma parsed_join_round_trip_witness :
  Configuration.parseCommaSeparatedInput (Some (JS.lit "src,lib/gen")) []
  = [JS.lit "src"; JS.lit "lib/gen"].
Proof.
  apply (parsed_join_round_trip [JS.lit "src"; JS.lit "lib/gen"] []); [discriminate|].
  repeat constructor; try discriminate; vm_compute; intuition discriminate.
Defined.

Lemma parsed_blank_input_witness :
  Configuration.parseCommaSeparatedInput (Some (JS.lit " , ,"))
    [JS.lit "node_modules"; JS.lit "dist"; JS.lit "test"]
  = [].
Proof.
  apply parsed_blank_input; [discriminate|].
  unfold Clean.blank. change (JS.lit " , ,") with [32; 44; 32; 44].
  repeat (constructor; [vm_compute; auto|]). constructor.
Defined.

(** ** The constructed configuration *)

Section ConstructedFacts.

Import Configuration.

(** What a successful construction leaves in the remaining fields. *)
Lemma new_Ok_rest (node : Node) (cfg : t) :
  new node = Ok cfg ->
  _branch cfg = JS.or_else (env node !! "INPUT_BRANCH") (JS.lit "develop")
  /\ repository cfg = loadRepository node (initial node)
  /\ pullRequestReviewers cfg
     = parseCommaSeparatedInput (env node !! "INPUT_REVIEWERS") [].
Proof.
  unfold new, loadConfiguration.
  destruct (loadRootDirectory node (initial node)) as [rd|e]; simpl; [|discriminate].
  intros H. injection H as <-. simpl. repeat split; reflexivity.
Qed.

(** X1.  On every constructed configuration the excluded directory names
    and the pull-request reviewers are clean items: none is empty, holds
    a comma, or has white space at either end. *)
Theorem configured_lists_clean (node : Node) (cfg : t) :
  new node = Ok cfg ->
  Forall Clean.item (excludedDirectories cfg)
  /\ Forall Clean.item (pullRequestReviewers cfg).
Proof.
  intros H.
  destruct (new_Ok node cfg H) as (_ & _ & _ & _ & _ & -> & _).
  destruct (new_Ok_rest node cfg H) as (_ & _ & ->).
  split; apply parseCommaSeparatedInput_clean; [|constructor].
  repeat constructor; try discriminate; vm_compute; intuition discriminate.
Qed.

(** X4.  The branch of a constructed configuration is never empty: it is
    [INPUT_BRANCH] when that holds a value and [develop] when it is unset
    or empty. *)
Theorem branch_never_empty (node : Node) (cfg : t) :
  new node = Ok cfg ->
  branch cfg <> []
  /\ (forall b, env node !! "INPUT_BRANCH" = Some b -> b <> [] -> branch cfg = b)
  /\ (env node !! "INPUT_BRANCH" = None \/ env node !! "INPUT_BRANCH" = Some [] ->
      branch cfg = JS.lit "develop").
Proof.
  intros H. destruct (new_Ok_rest node cfg H) as (Hbranch & _).
  unfold branch. rewrite Hbranch. unfold JS.or_else.
  destruct (env node !! "INPUT_BRANCH") as [[|c b]|]; simpl.
  - split; [discriminate|]. split; [|reflexivity].
    intros b Hb Hne. injection Hb as <-. congruence.
  - split; [discriminate|]. split.
    + intros b' Hb' _. now injection Hb' as <-.
    + intros [H0|H0]; discriminate H0.
  - split; [discriminate|]. split; [intros b Hb; discriminate Hb | reflexivity].
Qed.

Lemma loadRepository_named (node : Node) (this : t) :
  owner (loadRepository node this)
  = match env node !! "GITHUB_REPOSITORY" with
    | Some (c :: r) => default [] (JS.split 47 (c :: r) !! 0%nat)
    | _ => JS.lit "nydiokar"
    end
  /\ name (loadRepository node this)
     = match env node !! "GITHUB_REPOSITORY" with
       | Some (c :: r) => JS.split 47 (c :: r) !! 1%nat
       | _ => Some (JS.lit "sova")
       end
  /\ pullNumber (loadRepository node this)
     = match env node !! "INPUT_PULL_NUMBER" with
       | Some (c :: p) => Some (Number_parseInt node (c :: p))
       | _ => pullNumber (repository this)
       end.
Proof.
  unfold loadRepository.
  destruct (env node !! "GITHUB_REPOSITORY") as [[|c r]|];
    destruct (env node !! "INPUT_PULL_NUMBER") as [[|c' p]|];
    repeat split; reflexivity.
Qed.

(** X5.  The repository of a constructed configuration: for
    [GITHUB_REPOSITORY] of the form owner/name, possibly followed by more
    segments, the owner and the name are the first two segments; for a
    value with no slash the name is [undefined]; for an unset or empty
    variable they are the defaults.  The pull number is set exactly when
    [INPUT_PULL_NUMBER] holds a value, to what [Number.parseInt] makes of
    it. *)
Theorem repository_from_environment (node : Node) (cfg : t) :
  new node = Ok cfg ->
  (forall o n rest,
     env node !! "GITHUB_REPOSITORY" = Some (o ++ 47 :: n ++ rest)%list ->
     ~ In 47 o -> ~ In 47 n -> rest = [] \/ (exists rest', rest = 47 :: rest') ->
     owner (repository cfg) = o /\ name (repository cfg) = Some n)
  /\ (forall r,
        env node !! "GITHUB_REPOSITORY" = Some r -> r <> [] -> ~ In 47 r ->
        owner (repository cfg) = r /\ name (repository cfg) = None)
  /\ (env node !! "GITHUB_REPOSITORY" = None
      \/ env node !! "GITHUB_REPOSITORY" = Some [] ->
      owner (repository cfg) = JS.lit "nydiokar"
      /\ name (repository cfg) = Some (JS.lit "sova"))
  /\ (forall p,
        env node !! "INPUT_PULL_NUMBER" = Some p -> p <> [] ->
        pullNumber (repository cfg) = Some (Number_parseInt node p))
  /\ (env node !! "INPUT_PULL_NUMBER" = None
      \/ env node !! "INPUT_PULL_NUMBER" = Some [] ->
      pullNumber (repository cfg) = None).
Proof.
  intros H. destruct (new_Ok_rest node cfg H) as (_ & -> & _).
  destruct (loadRepository_named node (initial node)) as (-> & -> & ->).
  split; [|split; [|split; [|split]]].
  - intros o n rest -> Ho Hn Hrest.
    assert (Hsplit : exists more, JS.split 47 (o ++ 47 :: n ++ rest)%list = o :: n :: more).
    { rewrite (split_cons_separator 47 o _ Ho).
      destruct Hrest as [->|(rest' & ->)].
      - rewrite app_nil_r, (split_single 47 n Hn). now exists [].
      - rewrite (split_cons_separator 47 n _ Hn). eauto. }
    destruct Hsplit as (more & Hsplit).
    destruct (o ++ 47 :: n ++ rest)%list as [|c r] eqn:E.
    + destruct o; discriminate E.
    + rewrite Hsplit. now split.
  - intros r -> Hne Hr. destruct r as [|c r]; [congruence|].
    rewrite (split_single 47 (c :: r) Hr). now split.
  - intros [->| ->]; now split.
  - intros p -> Hne. destruct p as [|c p]; [congruence | reflexivity].
  - intros [->| ->]; reflexivity.
Qed.

End ConstructedFacts.

Lemma configured_lists_clean_witness :
  exists cfg,
    Configuration.new (Examples.node MoreExamples.env_actions None) = Ok cfg
    /\ Forall Clean.item (Configuration.excludedDirectories cfg)
    /\ Forall Clean.item (Configuration.pullRequestReviewers cfg).
Proof.
  eexists. split; [reflexivity|].
  apply (configured_lists_clean (Examples.node MoreExamples.env_actions None)).
  reflexivity.
Defined.

Lemma branch_never_empty_witness :
  exists cfg,
    Configuration.new (Examples.node MoreExamples.env_actions None) = Ok cfg
    /\ Configuration.branch cfg = JS.lit "main".
Proof.
  eexists. split; [reflexivity|].
  apply (branch_never_empty (Examples.node MoreExamples.env_actions None) _ eq_refl);
    [reflexivity | discriminate].
Defined.

Lemma repository_from_environment_witness :
  exists cfg,
    Configuration.new (Examples.node MoreExamples.env_actions None) = Ok cfg
    /\ owner (Configuration.repository cfg) = JS.lit "nydiokar"
    /\ name (Configuration.repository cfg) = Some (JS.lit "autodoc")
    /\ pullNumber (Configuration.repository cfg) = None.
Proof.
  eexists. split; [reflexivity|].
  destruct (repository_from_environment
              (Examples.node MoreExamples.env_actions None) _ eq_refl)
    as (Hnamed & _ & _ & _ & Hnumber).
  destruct (Hnamed (JS.lit "nydiokar") (JS.lit "autodoc") [] eq_refl) as [Ho Hn].
  - vm_compute. intuition discriminate.
  - vm_compute. intuition discriminate.
  - now left.
  - split; [exact Ho|]. split; [exact Hn|].
    apply Hnumber. right. reflexivity.
Defined.

Section RootDirectoryFacts.

Import Configuration.

(** A root directory is loaded only from a non-empty input or from a
    non-empty string that the workflow file declares as the default. *)
Lemma loadRootDirectory_Ok (node : Node) (this : t) (rd : RootDirectory) :
  loadRootDirectory node this = Ok rd ->
  exists value,
    value <> []
    /\ rd = {| absolute := path_resolve node (repoRoot this) value;
               relative := JS.strip_leading_slashes value |}
    /\ (env node !! "INPUT_ROOT_DIRECTORY" = Some value
        \/ ((env node !! "INPUT_ROOT_DIRECTORY" = None
             \/ env node !! "INPUT_ROOT_DIRECTORY" = Some [])
            /\ exists content workflow,
                 fs_existsSync node
                   (path_join node (repoRoot this)
                      (JS.lit ".github/workflows/jsdoc-automation.yml")) = true
                 /\ fs_readFileSync node
                      (path_join node (repoRoot this)
                         (JS.lit ".github/workflows/jsdoc-automation.yml"))
                    = Some content
                 /\ yaml_parse node content = Some workflow
                 /\ Stated.root_directory_default workflow = Some (YStr value))).
Proof.
  intros H.
  destruct (JS.defined_truthy (env node !! "INPUT_ROOT_DIRECTORY")) eqn:Hinput.
  - destruct (env node !! "INPUT_ROOT_DIRECTORY") as [[|c v]|] eqn:E;
      try discriminate Hinput.
    rewrite (loadRootDirectory_input node this (c :: v) E ltac:(discriminate)) in H.
    injection H as <-. exists (c :: v).
    split; [discriminate|]. split; [reflexivity|]. now left.
  - apply defined_truthy_spec in Hinput.
    set (workflowPath :=
           path_join node (repoRoot this)
             (JS.lit ".github/workflows/jsdoc-automation.yml")) in *.
    destruct (fs_existsSync node workflowPath) eqn:Hexists.
    2:{ rewrite (fallback_no_file node this Hinput Hexists) in H. discriminate H. }
    destruct (fs_readFileSync node workflowPath) as [content|] eqn:Hread.
    2:{ apply defined_truthy_spec in Hinput.
        unfold loadRootDirectory in H. rewrite Hinput in H.
        fold workflowPath in H. rewrite Hexists, Hread in H. discriminate H. }
    destruct (yaml_parse node content) as [workflow|] eqn:Hparse.
    2:{ apply defined_truthy_spec in Hinput.
        unfold loadRootDirectory in H. rewrite Hinput in H.
        fold workflowPath in H. rewrite Hexists, Hread in H. simpl in H.
        rewrite Hparse in H. discriminate H. }
    destruct (Stated.root_directory_default workflow) as [v|] eqn:Hdefault.
    2:{ destruct (fallback_undeclared node this Hinput content workflow
                    Hexists Hread Hparse Hdefault) as (e & He).
        rewrite He in H. discriminate H. }
    rewrite (fallback_declared node this Hinput content workflow
               Hexists Hread Hparse v Hdefault) in H.
    destruct v as [|b|n|targetDir|items|fields]; simpl in H;
      try discriminate H;
      try (destruct b; discriminate H);
      try (destruct (n =? 0)%Z; discriminate H).
    destruct targetDir as [|c targetDir]; [discriminate H|]. simpl in H.
    injection H as <-. exists (c :: targetDir).
    split; [discriminate|]. split; [reflexivity|]. right.
    split; [exact Hinput|]. exists content, workflow. auto.
Qed.

(** X6.  A constructed configuration always has a root directory.  It
    comes from a non-empty value, which is [INPUT_ROOT_DIRECTORY] or,
    when that is unset or empty, the string that the workflow file
    declares as the default of [root_directory]; the absolute path is
    that value resolved against the repository root, and the relative
    path is that value without its leading slashes, so it never starts
    with a slash. *)
Theorem constructed_root_directory (node : Node) (cfg : t) :
  new node = Ok cfg ->
  exists value rel,
    value <> []
    /\ rootDirectory cfg
       = Some {| absolute := path_resolve node (getRepoRoot node) value;
                 relative := rel |}
    /\ Stated.leading_slashes_stripped value rel
    /\ (env node !! "INPUT_ROOT_DIRECTORY" = Some value
        \/ ((env node !! "INPUT_ROOT_DIRECTORY" = None
             \/ env node !! "INPUT_ROOT_DIRECTORY" = Some [])
            /\ exists content workflow,
                 fs_existsSync node
                   (path_join node (getRepoRoot node)
                      (JS.lit ".github/workflows/jsdoc-automation.yml")) = true
                 /\ fs_readFileSync node
                      (path_join node (getRepoRoot node)
                         (JS.lit ".github/workflows/jsdoc-automation.yml"))
                    = Some content
                 /\ yaml_parse node content = Some workflow
                 /\ Stated.root_directory_default workflow = Some (YStr value))).
Proof.
  intros H. destruct (new_Ok node cfg H) as (rd & Hload & Hrd & _).
  destruct (loadRootDirectory_Ok node (initial node) rd Hload)
    as (value & Hne & -> & Hsource).
  exists value, (JS.strip_leading_slashes value).
  split; [exact Hne|]. split; [exact Hrd|].
  split; [apply strip_leading_slashes_stripped | exact Hsource].
Qed.

(** X7.  A truthy default that is not a string makes the construction
    throw: with [INPUT_ROOT_DIRECTORY] unset or empty, a workflow file
    whose [root_directory] default is a number, a boolean, a sequence or
    a mapping never yields a configuration. *)
Theorem non_string_default_throws
    (node : Node) (content : jsstring) (workflow v : yaml) :
  env node !! "INPUT_ROOT_DIRECTORY" = None
  \/ env node !! "INPUT_ROOT_DIRECTORY" = Some [] ->
  fs_existsSync node
    (path_join node (getRepoRoot node)
       (JS.lit ".github/workflows/jsdoc-automation.yml")) = true ->
  fs_readFileSync node
    (path_join node (getRepoRoot node)
       (JS.lit ".github/workflows/jsdoc-automation.yml")) = Some content ->
  yaml_parse node content = Some workflow ->
  Stated.root_directory_default workflow = Some v ->
  (forall s, v <> YStr s) ->
  new node
  = Throw (if Yaml.truthy (Some v) then TypeError else NoRootDirectoryDefault).
Proof.
  intros Hinput Hexists Hread Hparse Hdefault Hv.
  apply new_of_throw.
  rewrite (fallback_declared node (initial node) Hinput content workflow
             Hexists Hread Hparse v Hdefault).
  destruct v as [|b|n|s|items|fields]; simpl; try reflexivity.
  - destruct b; reflexivity.
  - destruct (n =? 0)%Z; reflexivity.
  - elim (Hv s). reflexivity.
Qed.

(** X8.  The flags accept two spellings only: [generateJsDoc] is true
    exactly when [INPUT_JSDOC] is unset, empty, [t] or [T], and
    [generateReadme] exactly when [INPUT_README] is. *)
Theorem mode_flags_spellings (node : Node) (cfg : t) :
  new node = Ok cfg ->
  (generateJsDoc cfg = true
   <-> env node !! "INPUT_JSDOC" = None
       \/ env node !! "INPUT_JSDOC" = Some []
       \/ env node !! "INPUT_JSDOC" = Some (JS.lit "t")
       \/ env node !! "INPUT_JSDOC" = Some (JS.lit "T"))
  /\ (generateReadme cfg = true
      <-> env node !! "INPUT_README" = None
          \/ env node !! "INPUT_README" = Some []
          \/ env node !! "INPUT_README" = Some (JS.lit "t")
          \/ env node !! "INPUT_README" = Some (JS.lit "T")).
Proof.
  intros H. destruct (new_Ok node cfg H) as (_ & _ & _ & Hjs & Hreadme & _).
  unfold generateJsDoc, generateReadme. rewrite Hjs, Hreadme.
  assert (Hflag : forall v,
            parseFlag v = true
            <-> v = None \/ v = Some [] \/ v = Some (JS.lit "t") \/ v = Some (JS.lit "T")).
  { intros v. rewrite parseFlag_true. split.
    - intros [Hv|[Hv|(s & Hv & Hs)]]; [now left | now right; left |].
      apply toUpperCase_T in Hs as [->| ->]; rewrite Hv; tauto.
    - intros [Hv|[Hv|[Hv|Hv]]]; [now left | now right; left | |];
        right; right; eexists; (split; [exact Hv | reflexivity]). }
  split; apply Hflag.
Qed.

End RootDirectoryFacts.

Lemma constructed_root_directory_witness :
  exists cfg value rel,
    Configuration.new (Examples.node Examples.env_empty_root (Some Examples.workflow)) = Ok cfg
    /\ value <> []
    /\ Configuration.rootDirectory cfg
       = Some {| Configuration.absolute := (JS.lit "/work/" ++ value)%list;
                 Configuration.relative := rel |}
    /\ Stated.leading_slashes_stripped value rel.
Proof.
  eexists.
  destruct (constructed_root_directory
              (Examples.node Examples.env_empty_root (Some Examples.workflow)) _ eq_refl)
    as (value & rel & Hne & Hrd & Hrel & _).
  exists value, rel. split; [reflexivity|]. split; [exact Hne|].
  split; [exact Hrd | exact Hrel].
Defined.

Lemma non_string_default_throws_witness :
  Configuration.new (Examples.node ∅ (Some MoreExamples.workflow_numeric))
  = Throw Configuration.TypeError.
Proof.
  apply (non_string_default_throws
           (Examples.node ∅ (Some MoreExamples.workflow_numeric))
           (JS.lit "on: {}") MoreExamples.workflow_numeric (YNum 5));
    try reflexivity; [now left | discriminate].
Defined.

Lemma mode_flags_spellings_witness :
  exists cfg,
    Configuration.new (Examples.node MoreExamples.env_spellings None) = Ok cfg
    /\ Configuration.generateJsDoc cfg = true
    /\ Configuration.generateReadme cfg <> true.
Proof.
  eexists. split; [reflexivity|].
  destruct (mode_flags_spellings (Examples.node MoreExamples.env_spellings None) _ eq_refl)
    as [Hjs Hreadme].
  split.
  - apply Hjs. right. right. left. reflexivity.
  - intros H. apply Hreadme in H.
    destruct H as [H|[H|[H|H]]]; discriminate H.
Defined.

(** ** More of GitManager *)

Section GitManagerMore.

Import GitManager.

Variable this : t.

Let owner_ : jsstring := owner (repository this).
Let repo_ : option jsstring := name (repository this).

Lemma backslashes_to_slashes_none (s : jsstring) :
  ~ In 92 (JS.backslashes_to_slashes s).
Proof.
  unfold JS.backslashes_to_slashes. induction s as [|c s IH]; simpl; [tauto|].
  intros [H|H]; [|exact (IH H)].
  destruct (N.eqb_spec c 92); [discriminate H | congruence].
Qed.

Lemma backslashes_to_slashes_idempotent (s : jsstring) :
  JS.backslashes_to_slashes (JS.backslashes_to_slashes s) = JS.backslashes_to_slashes s.
Proof.
  unfold JS.backslashes_to_slashes. rewrite map_map. apply map_ext.
  intros c. destruct (N.eqb_spec c 92); [reflexivity|].
  destruct (N.eqb_spec c 92); [contradiction | reflexivity].
Qed.

(** X9.  When the read succeeds and the update is then answered with
    status 404, [commitFile] goes on to create the file without a sha and
    resolves or rejects as that creation does; an update that fails with
    any other status is rethrown as it is. *)
Theorem commitFile_update_not_found
    (base64 : jsstring -> jsstring)
    (branchName filePath content message : jsstring) (remote : Remote)
    (data : Content) (error : JsError) :
  let posixFilePath := JS.backslashes_to_slashes filePath in
  let reading := repos_getContent owner_ repo_ posixFilePath branchName in
  let writing sha :=
    repos_createOrUpdateFileContents owner_ repo_ posixFilePath message
      (base64 content) sha branchName in
  let outcome := run (commitFile base64 this branchName filePath content message) remote in
  remote [] reading = Ok data ->
  remote [reading] (writing (sha data)) = Throw error ->
  (status error = Some 404%Z ->
   outcome = ([reading; writing (sha data); writing None],
              remote [reading; writing (sha data)] (writing None)))
  /\ (status error <> Some 404%Z ->
      outcome = ([reading; writing (sha data)], Throw error)).
Proof.
  intros posixFilePath reading writing outcome Hread Hwrite. subst outcome.
  unfold run, commitFile, try_catch, bind, await, ret, throw.
  fold owner_ repo_ posixFilePath. simpl. fold reading. rewrite Hread. simpl.
  change (repos_createOrUpdateFileContents owner_ repo_ posixFilePath message
            (base64 content) (sha data) branchName) with (writing (sha data)).
  rewrite Hwrite. simpl. split; intros H.
  - rewrite bool_decide_eq_true_2 by exact H. reflexivity.
  - rewrite bool_decide_eq_false_2 by exact H. reflexivity.
Qed.

(** X10.  [commitFile] reads once and writes at most twice, always the
    same path, message, content and branch; and when it rejects, it
    rejects with the answer of the remote to the last request it
    issued. *)
Theorem commitFile_requests
    (base64 : jsstring -> jsstring)
    (branchName filePath content message : jsstring) (remote : Remote) :
  let posixFilePath := JS.backslashes_to_slashes filePath in
  let reading := repos_getContent owner_ repo_ posixFilePath branchName in
  let writing sha :=
    repos_createOrUpdateFileContents owner_ repo_ posixFilePath message
      (base64 content) sha branchName in
  let outcome := run (commitFile base64 this branchName filePath content message) remote in
  (exists writes,
     outcome.1 = reading :: writes
     /\ (length writes <= 2)%nat
     /\ Forall (fun r => exists sha, r = writing sha) writes)
  /\ (forall e,
        outcome.2 = Throw e ->
        exists history r, outcome.1 = (history ++ [r])%list /\ remote history r = Throw e).
Proof.
  intros posixFilePath reading writing outcome. subst outcome.
  unfold run, commitFile, try_catch, bind, await, ret, throw.
  fold owner_ repo_ posixFilePath. simpl. fold reading.
  destruct (remote [] reading) as [data|e0] eqn:Hread; simpl.
  - change (repos_createOrUpdateFileContents owner_ repo_ posixFilePath message
              (base64 content) (sha data) branchName) with (writing (sha data)).
    destruct (remote [reading] (writing (sha data))) as [[]|e1] eqn:Hwrite; simpl.
    + split; [|discriminate].
      exists [writing (sha data)]. repeat split; [simpl; lia|].
      repeat constructor. eauto.
    + destruct (bool_decide (status e1 = Some 404%Z)); simpl.
      * change (repos_createOrUpdateFileContents owner_ repo_ posixFilePath message
                  (base64 content) None branchName) with (writing None).
        split.
        -- exists [writing (sha data); writing None]. repeat split; [simpl; lia|].
           repeat constructor; eauto.
        -- intros e He. exists [reading; writing (sha data)], (writing None).
           split; [reflexivity | exact He].
      * split.
        -- exists [writing (sha data)]. repeat split; [simpl; lia|].
           repeat constructor. eauto.
        -- intros e He. injection He as <-.
           exists [reading], (writing (sha data)). split; [reflexivity | exact Hwrite].
  - destruct (bool_decide (status e0 = Some 404%Z)); simpl.
    + change (repos_createOrUpdateFileContents owner_ repo_ posixFilePath message
                (base64 content) None branchName) with (writing None).
      split.
      * exists [writing None]. repeat split; [simpl; lia|].
        repeat constructor. eauto.
      * intros e He. exists [reading], (writing None).
        split; [reflexivity | exact He].
    + split.
      * exists []. repeat split; [simpl; lia | constructor].
      * intros e He. injection He as <-.
        exists [], reading. split; [reflexivity | exact Hread].
Qed.

(** [commitFile] begins by reading the path with slashes. *)
Lemma commitFile_first_request
    (base64 : jsstring -> jsstring)
    (branchName filePath content message : jsstring) (remote : Remote) :
  exists rest,
    (run (commitFile base64 this branchName filePath content message) remote).1
    = repos_getContent owner_ repo_ (JS.backslashes_to_slashes filePath) branchName
      :: rest.
Proof.
  unfold run, commitFile, try_catch, bind, await, ret, throw.
  fold owner_ repo_. simpl.
  destruct (remote [] _) as [data|e0]; simpl.
  - destruct (remote _ _) as [[]|e1]; simpl; [eauto|].
    destruct (bool_decide (status e1 = Some 404%Z)); simpl; eauto.
  - destruct (bool_decide (status e0 = Some 404%Z)); simpl; eauto.
Qed.

(** X11.  A path written with backslashes is committed as the same path
    written with slashes: the two calls issue the same requests with the
    same result, and the path they read holds no backslash. *)
Theorem commitFile_posix_path
    (base64 : jsstring -> jsstring)
    (branchName filePath content message : jsstring) (remote : Remote) :
  run (commitFile base64 this branchName filePath content message) remote
  = run (commitFile base64 this branchName (JS.backslashes_to_slashes filePath)
           content message) remote
  /\ exists posixFilePath rest,
       ~ In 92 posixFilePath
       /\ (run (commitFile base64 this branchName filePath content message) remote).1
          = repos_getContent owner_ repo_ posixFilePath branchName :: rest.
Proof.
  split.
  - unfold commitFile. now rewrite backslashes_to_slashes_idempotent.
  - destruct (commitFile_first_request base64 branchName filePath content message remote)
      as (writes & Hlog).
    exists (JS.backslashes_to_slashes filePath), writes.
    split; [apply backslashes_to_slashes_none | exact Hlog].
Qed.

(** X12.  [createPullRequest] always begins with the listing and issues
    at most three requests after it; and when it rejects, it rejects with
    the answer of the remote to the last request it issued, so a failed
    request is never followed by another one and its error is never
    replaced. *)
Theorem createPullRequest_requests
    (options : CreatePullRequestOptions) (remote : Remote) :
  let listing := pulls_list owner_ repo_ (head options) in
  let outcome := run (createPullRequest this options) remote in
  (exists rest, outcome.1 = listing :: rest /\ (length rest <= 3)%nat)
  /\ (forall e,
        outcome.2 = Throw e ->
        exists history r, outcome.1 = (history ++ [r])%list /\ remote history r = Throw e).
Proof.
  intros listing outcome. subst outcome.
  unfold run, createPullRequest, try_catch, bind, await, ret, throw.
  fold owner_ repo_. simpl. fold listing.
  destruct (remote [] listing) as [[|pr0 existing]|e0] eqn:Hlist; simpl.
  2:{ split; [exists []; split; [reflexivity | simpl; lia] | discriminate]. }
  2:{ split; [exists []; split; [reflexivity | simpl; lia]|].
      intros e He. injection He as <-. exists [], listing. now split. }
  set (creation := pulls_create owner_ repo_ (title options) (body options)
                     (head options) (base options) (labels options)).
  destruct (remote [listing] creation) as [pr|e1] eqn:Hcreate; simpl.
  2:{ split; [exists [creation]; split; [reflexivity | simpl; lia]|].
      intros e He. injection He as <-. exists [listing], creation. now split. }
  destruct (reviewers options) as [configured|]; simpl.
  2:{ split; [exists [creation]; split; [reflexivity | simpl; lia] | discriminate]. }
  destruct (0 <? length configured)%nat; simpl.
  2:{ split; [exists [creation]; split; [reflexivity | simpl; lia] | discriminate]. }
  destruct (remote [listing; creation] users_getAuthenticated) as [user|e2] eqn:Huser;
    simpl.
  2:{ split; [exists [creation; users_getAuthenticated]; split;
              [reflexivity | simpl; lia]|].
      intros e He. injection He as <-.
      exists [listing; creation], users_getAuthenticated. now split. }
  destruct (0 <? length (List.filter _ configured))%nat; simpl.
  2:{ split; [exists [creation; users_getAuthenticated]; split;
              [reflexivity | simpl; lia] | discriminate]. }
  match goal with
  | |- context [match ?answer with Ok _ => _ | Throw _ => _ end] =>
      destruct answer as [[]|e3] eqn:Hrequest
  end; simpl.
  - split; [eexists; split; [reflexivity | simpl; lia] | discriminate].
  - split; [eexists; split; [reflexivity | simpl; lia]|].
    intros e He. injection He as <-.
    eexists [listing; creation; users_getAuthenticated], _.
    split; [reflexivity | exact Hrequest].
Qed.

End GitManagerMore.

Lemma commitFile_update_not_found_witness :
  GitManager.run
    (GitManager.commitFile Examples.base64 Examples.manager
       (JS.lit "autodocs-1") (JS.lit "src\cli.ts") (JS.lit "// docs") (JS.lit "Generated"))
    MoreExamples.remote_vanishing
  = ([GitManager.repos_getContent (JS.lit "nydiokar") (Some (JS.lit "autodoc"))
        (JS.lit "src/cli.ts") (JS.lit "autodocs-1");
      GitManager.repos_createOrUpdateFileContents (JS.lit "nydiokar")
        (Some (JS.lit "autodoc")) (JS.lit "src/cli.ts") (JS.lit "Generated")
        (JS.lit "// docs") (Some (JS.lit "abc")) (JS.lit "autodocs-1");
      GitManager.repos_createOrUpdateFileContents (JS.lit "nydiokar")
        (Some (JS.lit "autodoc")) (JS.lit "src/cli.ts") (JS.lit "Generated")
        (JS.lit "// docs") None (JS.lit "autodocs-1")],
     Ok tt).
Proof.
  apply (commitFile_update_not_found Examples.manager Examples.base64
           (JS.lit "autodocs-1") (JS.lit "src\cli.ts") (JS.lit "// docs")
           (JS.lit "Generated") MoreExamples.remote_vanishing
           {| GitManager.sha := Some (JS.lit "abc") |} Examples.not_found);
    reflexivity.
Defined.

Lemma commitFile_requests_witness :
  exists history r,
    (GitManager.run
       (GitManager.commitFile Examples.base64 Examples.manager
          (JS.lit "autodocs-1") (JS.lit "src\cli.ts") (JS.lit "// docs")
          (JS.lit "Generated"))
       (Examples.remote [] (Throw Examples.server_error))).1
    = (history ++ [r])%list
    /\ Examples.remote [] (Throw Examples.server_error) history r
       = Throw Examples.server_error.
Proof.
  apply (commitFile_requests Examples.manager Examples.base64
           (JS.lit "autodocs-1") (JS.lit "src\cli.ts") (JS.lit "// docs")
           (JS.lit "Generated") (Examples.remote [] (Throw Examples.server_error))).
  reflexivity.
Defined.

Lemma createPullRequest_requests_witness :
  exists history r,
    (GitManager.run
       (GitManager.createPullRequest Examples.manager (Examples.options None))
       MoreExamples.remote_vanishing).1
    = (history ++ [r])%list
    /\ MoreExamples.remote_vanishing history r = Throw Examples.server_error.
Proof.
  apply (createPullRequest_requests Examples.manager (Examples.options None)
           MoreExamples.remote_vanishing).
  reflexivity.
Defined.

(** ** Branches and pull-request files *)

Section GitManagerRefsFacts.

Import GitManagerRefs.

Variable this : GitManager.t.

Let owner_ : jsstring := owner (GitManager.repository this).
Let repo_ : option jsstring := name (GitManager.repository this).

(** X13.  [createBranch] reads the base branch first.  When that read
    fails, no ref is created and the error is rethrown as it is; when it
    succeeds, one ref [refs/heads/<branchName>] is created at exactly the
    sha that was read, and the call resolves or rejects as that creation
    does. *)
Theorem createBranch_reads_base_first
    (branchName baseBranch : jsstring) (remote : Remote) :
  let reading := git_getRef owner_ repo_ (JS.lit "heads/" ++ baseBranch)%list in
  let outcome := run (createBranch this branchName baseBranch) remote in
  (forall e, remote [] reading = Throw e -> outcome = ([reading], Throw e))
  /\ (forall base,
        remote [] reading = Ok base ->
        outcome
        = ([reading;
            git_createRef owner_ repo_ (JS.lit "refs/heads/" ++ branchName)%list
              (object_sha base)],
           remote [reading]
             (git_createRef owner_ repo_ (JS.lit "refs/heads/" ++ branchName)%list
                (object_sha base)))).
Proof.
  intros reading outcome. subst outcome.
  unfold run, createBranch, bind, await.
  fold owner_ repo_. fold reading. cbv beta.
  split.
  - intros e ->. reflexivity.
  - intros base ->. reflexivity.
Qed.

(** X14.  [getFilesInPullRequest] issues one listing and nothing else.
    It rejects with the error of that listing, and otherwise returns one
    entry for every listed file, in the order of the listing, with the
    file name, status and counts of that file. *)
Theorem getFilesInPullRequest_lists_once (pullNumber : Z) (remote : Remote) :
  let listing := pulls_listFiles owner_ repo_ pullNumber in
  let outcome := run (getFilesInPullRequest this pullNumber) remote in
  outcome.1 = [listing]
  /\ (forall e, remote [] listing = Throw e -> outcome.2 = Throw e)
  /\ (forall data,
        remote [] listing = Ok data ->
        exists files,
          outcome.2 = Ok files
          /\ length files = length data
          /\ forall i file,
               data !! i = Some file ->
               exists change,
                 files !! i = Some change
                 /\ filename change = file_filename file
                 /\ status change = file_status file
                 /\ additions change = file_additions file
                 /\ deletions change = file_deletions file
                 /\ changes change = file_changes file
                 /\ contents_url change = file_contents_url file).
Proof.
  intros listing outcome. subst outcome.
  unfold run, getFilesInPullRequest, bind, await, ret.
  fold owner_ repo_. fold listing. cbv beta.
  destruct (remote [] listing) as [data|e0]; simpl.
  - split; [reflexivity|]. split; [discriminate|].
    intros data' Hdata. injection Hdata as <-.
    eexists. split; [reflexivity|]. split; [apply length_map|].
    intros i file Hfile. eexists. split.
    + rewrite list_lookup_fmap, Hfile. reflexivity.
    + simpl. repeat split; reflexivity.
  - split; [reflexivity|]. split; [|discriminate].
    intros e He. injection He as <-. reflexivity.
Qed.

End GitManagerRefsFacts.

Lemma createBranch_reads_base_first_witness :
  GitManagerRefs.run
    (GitManagerRefs.createBranch Examples.manager (JS.lit "autodocs-1") (JS.lit "develop"))
    (MoreExamples.remote (Throw Examples.not_found))
  = ([GitManagerRefs.git_getRef (JS.lit "nydiokar") (Some (JS.lit "autodoc"))
        (JS.lit "heads/develop")],
     Throw Examples.not_found)
  /\ GitManagerRefs.run
       (GitManagerRefs.createBranch Examples.manager (JS.lit "autodocs-1")
          (JS.lit "develop"))
       (MoreExamples.remote (Ok {| GitManagerRefs.object_sha := JS.lit "abc" |}))
     = ([GitManagerRefs.git_getRef (JS.lit "nydiokar") (Some (JS.lit "autodoc"))
           (JS.lit "heads/develop");
         GitManagerRefs.git_createRef (JS.lit "nydiokar") (Some (JS.lit "autodoc"))
           (JS.lit "refs/heads/autodocs-1") (JS.lit "abc")],
        Ok tt).
Proof.
  split.
  - apply (createBranch_reads_base_first Examples.manager (JS.lit "autodocs-1")
             (JS.lit "develop") (MoreExamples.remote (Throw Examples.not_found))).
    reflexivity.
  - apply (proj2 (createBranch_reads_base_first Examples.manager (JS.lit "autodocs-1")
                    (JS.lit "develop")
                    (MoreExamples.remote
                       (Ok {| GitManagerRefs.object_sha := JS.lit "abc" |})))
             {| GitManagerRefs.object_sha := JS.lit "abc" |}).
    reflexivity.
Defined.

Lemma getFilesInPullRequest_lists_once_witness :
  exists files change,
    (GitManagerRefs.run (GitManagerRefs.getFilesInPullRequest Examples.manager 7)
       MoreExamples.remote_files).2
    = Ok files
    /\ length files = 2%nat
    /\ files !! 1%nat = Some change
    /\ GitManagerRefs.filename change = JS.lit "src/GitManager.ts"
    /\ GitManagerRefs.status change = JS.lit "added"
    /\ GitManagerRefs.additions change = 10%Z
    /\ GitManagerRefs.deletions change = 0%Z
    /\ GitManagerRefs.changes change = 10%Z
    /\ GitManagerRefs.contents_url change
       = JS.lit "https://api.github.com/contents/GitManager.ts".
Proof.
  destruct (getFilesInPullRequest_lists_once Examples.manager 7 MoreExamples.remote_files)
    as (_ & _ & Hfiles).
  destruct (Hfiles MoreExamples.listed_files eq_refl) as (files & Hrun & Hlen & Hfile).
  destruct (Hfile 1%nat _ eq_refl) as (change & Hchange & Hfields).
  exists files, change. split; [exact Hrun|]. split; [exact Hlen|].
  split; [exact Hchange | exact Hfields].
Defined.

(** ** The arguments of the command line *)

Section CliFacts.

Import Cli.

Lemma startsWith_prefix (s prefix : jsstring) :
  startsWith s prefix = true <-> exists rest, s = (prefix ++ rest)%list.
Proof.
  revert s. induction prefix as [|p prefix IH]; intros s.
  - split; [intros _; now exists s | intros _; destruct s; reflexivity].
  - destruct s as [|c s]; simpl.
    + split; [discriminate | intros (rest & H); discriminate H].
    + rewrite andb_true_iff, N.eqb_eq, IH. split.
      * intros [-> (rest & ->)]. now exists rest.
      * intros (rest & H). injection H as -> ->. split; [reflexivity | now exists rest].
Qed.

(** What [find] returns is the first element that passes the test. *)
Lemma find_first {A} (f : A -> bool) (l : list A) (x : A) :
  List.find f l = Some x
  <-> exists before after,
        l = (before ++ x :: after)%list
        /\ Forall (fun a => f a = false) before /\ f x = true.
Proof.
  split.
  - induction l as [|a l IH]; simpl; [discriminate|].
    destruct (f a) eqn:E.
    + intros H. injection H as <-. exists [], l. repeat split; [constructor | exact E].
    + intros H. destruct (IH H) as (before & after & -> & Hbefore & Hx).
      exists (a :: before), after. repeat split; [now constructor | exact Hx].
  - intros (before & after & -> & Hbefore & Hx).
    induction Hbefore as [|a before Ha _ IH]; simpl; [now rewrite Hx | now rewrite Ha].
Qed.

Lemma exclude_prefix : JS.lit "--exclude=" = (JS.lit "--exclude" ++ [61])%list.
Proof. reflexivity. Qed.

Lemma exclude_no_equals : ~ In 61 (JS.lit "--exclude").
Proof. vm_compute. intuition discriminate. Qed.

(** An argument that starts with [--exclude=] splits at its equals signs
    into [--exclude] and at least one more item. *)
Lemma exclude_split (arg : jsstring) :
  startsWith arg (JS.lit "--exclude=") = true ->
  exists value more, JS.split 61 arg = JS.lit "--exclude" :: value :: more.
Proof.
  intros H. apply startsWith_prefix in H as (rest & ->).
  rewrite exclude_prefix, <- app_assoc. simpl app at 2.
  rewrite (split_cons_separator 61 _ rest exclude_no_equals).
  pose proof (split_nonempty 61 rest) as Hne.
  destruct (JS.split 61 rest) as [|value more]; [contradiction|]. eauto.
Qed.

Lemma excludePatterns_total (args : list jsstring) :
  exists patterns, excludePatterns args = Ok patterns.
Proof.
  unfold excludePatterns.
  destruct (excludeArg args) as [arg|] eqn:E; [|eauto].
  destruct (JS.truthy arg); [|eauto].
  apply find_some in E as [_ E].
  destruct (exclude_split arg E) as (value & more & ->). simpl. eauto.
Qed.

(** X15.  [excludePatterns] never throws: the second item that it reads
    after splitting at the equals sign is always there.  The list is
    empty exactly when no argument starts with [--exclude=]; with such an
    argument there is at least one pattern, which may be empty. *)
Theorem excludePatterns_never_throws (args : list jsstring) :
  exists patterns,
    excludePatterns args = Ok patterns
    /\ (patterns = [] <-> excludeArg args = None).
Proof.
  unfold excludePatterns.
  destruct (excludeArg args) as [arg|] eqn:E.
  2:{ exists []. now split. }
  apply find_some in E as [_ E].
  destruct (exclude_split arg E) as (value & more & Hsplit).
  assert (Htruthy : JS.truthy arg = true).
  { destruct arg; [discriminate Hsplit | reflexivity]. }
  rewrite Htruthy, Hsplit. simpl.
  exists (JS.split 44 value). split; [reflexivity|].
  split; [|discriminate]. intros H. elim (split_nonempty 44 value H).
Qed.

(** The patterns are read from the first argument that starts with
    [--exclude=], from what follows up to the next equals sign. *)
Lemma excludePatterns_value (before after : list jsstring) (value rest : jsstring) :
  Forall (fun arg => startsWith arg (JS.lit "--exclude=") = false) before ->
  ~ In 61 value -> rest = [] \/ (exists rest', rest = 61 :: rest') ->
  excludePatterns (before ++ (JS.lit "--exclude=" ++ value ++ rest) :: after)%list
  = Ok (JS.split 44 value).
Proof.
  intros Hbefore Hvalue Hrest. unfold excludePatterns, excludeArg.
  assert (Hfind : List.find (fun arg => startsWith arg (JS.lit "--exclude="))
                    (before ++ (JS.lit "--exclude=" ++ value ++ rest) :: after)%list
                  = Some (JS.lit "--exclude=" ++ value ++ rest)%list).
  { apply find_first. exists before, after. repeat split; [exact Hbefore|].
    apply startsWith_prefix. eauto. }
  rewrite Hfind.
  assert (Hsplit : exists more,
            JS.split 61 (JS.lit "--exclude=" ++ value ++ rest)%list
            = JS.lit "--exclude" :: value :: more).
  { rewrite exclude_prefix, <- app_assoc. simpl app at 2.
    rewrite (split_cons_separator 61 _ _ exclude_no_equals).
    destruct Hrest as [->|(rest' & ->)].
    - rewrite app_nil_r, (split_single 61 value Hvalue). now exists [].
    - rewrite (split_cons_separator 61 value _ Hvalue). eauto. }
  destruct Hsplit as (more & Hsplit).
  destruct (JS.lit "--exclude=" ++ value ++ rest)%list as [|c arg] eqn:Earg;
    [discriminate Hsplit|].
  simpl JS.truthy. cbv iota. rewrite Hsplit. reflexivity.
Qed.

(** X16.  Patterns that hold neither a comma nor an equals sign come
    back as they were written after [--exclude=], in their order; only
    the first such argument counts, and what follows a second equals sign
    in it is dropped. *)
Theorem excludePatterns_round_trip
    (before after : list jsstring) (patterns : list jsstring) (rest : jsstring) :
  Forall (fun arg => startsWith arg (JS.lit "--exclude=") = false) before ->
  patterns <> [] ->
  Forall (fun pattern => ~ In 44 pattern /\ ~ In 61 pattern) patterns ->
  rest = [] \/ (exists rest', rest = 61 :: rest') ->
  excludePatterns
    (before ++ (JS.lit "--exclude=" ++ Stated.join 44 patterns ++ rest) :: after)%list
  = Ok patterns.
Proof.
  intros Hbefore Hne Hpatterns Hrest.
  rewrite (excludePatterns_value before after (Stated.join 44 patterns) rest Hbefore);
    [|clear Hne|exact Hrest].
  - f_equal. apply split_join; [exact Hne|].
    eapply Forall_impl; [exact Hpatterns|]. intros pattern [H _]. exact H.
  - induction Hpatterns as [|p ps [_ Hp] _ IH]; [intros []|].
    destruct ps as [|q ps]; [exact Hp|].
    change (Stated.join 44 (p :: q :: ps)) with (p ++ 44 :: Stated.join 44 (q :: ps))%list.
    intros H. apply in_app_or in H as [H|[H|H]];
      [exact (Hp H) | discriminate H | exact (IH H)].
Qed.

(** X17.  [main] exits with code 1 before it sets anything up exactly
    when no argument after the first two is free of a leading [--], or
    the first such argument is empty.  Otherwise it goes on with that
    argument as the target: a non-empty argument with no leading [--],
    every argument before it being an option; with the dry-run flag set
    exactly when [--dry-run] is among the arguments; and with the exclude
    patterns. *)
Theorem main_start_target (argv : list jsstring) :
  (main_start argv = Exit 1
   <-> targetPath (args argv) = None \/ targetPath (args argv) = Some [])
  /\ (forall code, main_start argv = Exit code -> code = 1%Z)
  /\ (forall target dry patterns,
        main_start argv = Run target dry patterns ->
        target <> []
        /\ startsWith target (JS.lit "--") = false
        /\ (exists before after,
              args argv = (before ++ target :: after)%list
              /\ Forall (fun arg => startsWith arg (JS.lit "--") = true) before)
        /\ (dry = true <-> In (JS.lit "--dry-run") (args argv))
        /\ excludePatterns (args argv) = Ok patterns).
Proof.
  unfold main_start.
  destruct (excludePatterns_total (args argv)) as (patterns & Hpatterns).
  rewrite Hpatterns.
  destruct (targetPath (args argv)) as [[|c target]|] eqn:Htarget; simpl.
  - split; [split; [now right | reflexivity]|].
    split; [intros code H; now injection H as <- | discriminate].
  - split; [split; [discriminate | intros [H|H]; discriminate H]|].
    split; [discriminate|].
    intros target' dry patterns' H. injection H as <- <- <-.
    split; [discriminate|].
    apply find_first in Htarget as (before & after & Hargs & Hbefore & Hx).
    apply negb_true_iff in Hx. split; [exact Hx|]. split.
    + exists before, after. split; [exact Hargs|].
      eapply Forall_impl; [exact Hbefore|]. intros arg Harg.
      now apply negb_false_iff in Harg.
    + split; [|reflexivity]. unfold dryRun. rewrite existsb_exists. split.
      * intros (arg & Hin & Harg). apply eqb_eq in Harg. now subst arg.
      * intros Hin. exists (JS.lit "--dry-run"). split; [exact Hin | now apply eqb_eq].
  - split; [split; [now left | reflexivity]|].
    split; [intros code H; now injection H as <- | discriminate].
Qed.

End CliFacts.

Lemma excludePatterns_never_throws_witness :
  exists patterns,
    Cli.excludePatterns [JS.lit "src"; JS.lit "--exclude="] = Ok patterns
    /\ patterns <> [].
Proof.
  destruct (excludePatterns_never_throws [JS.lit "src"; JS.lit "--exclude="])
    as (patterns & Hrun & Hempty).
  exists patterns. split; [exact Hrun|].
  intros H. apply Hempty in H. discriminate H.
Defined.

Lemma excludePatterns_round_trip_witness :
  Cli.excludePatterns
    [JS.lit "src"; JS.lit "--dry-run"; JS.lit "--exclude=dist,test=old";
     JS.lit "--exclude=other"]
  = Ok [JS.lit "dist"; JS.lit "test"].
Proof.
  apply (excludePatterns_round_trip [JS.lit "src"; JS.lit "--dry-run"]
           [JS.lit "--exclude=other"] [JS.lit "dist"; JS.lit "test"] (JS.lit "=old")).
  - repeat constructor.
  - discriminate.
  - repeat constructor; vm_compute; intuition discriminate.
  - right. now exists (JS.lit "old").
Defined.

Lemma main_start_target_witness :
  Cli.main_start [JS.lit "node"; JS.lit "cli.js"; JS.lit "--dry-run"; JS.lit "src"]
  = Cli.Run (JS.lit "src") true []
  /\ Cli.main_start [JS.lit "node"; JS.lit "cli.js"; JS.lit "--dry-run"] = Cli.Exit 1.
Proof.
  split; [reflexivity|].
  apply (main_start_target [JS.lit "node"; JS.lit "cli.js"; JS.lit "--dry-run"]).
  left. reflexivity.
Defined.
